(** * CodingTimeTracker: the store (database.ts) and the session tracker
      (tracker.ts), embedded and verified.

    The two TypeScript classes [DatabaseManager] and [ActivityTracker] are
    translated method by method.  Both mutate object fields, read the system
    clock and may throw, so the methods live in one small monad over a
    [World] (the host, the store object, the tracker object) whose failures
    keep the state reached before the [throw], as a JavaScript exception does.

    Modelling conventions.
    - Timestamps, durations and row ids are [Z].  JavaScript numbers and
      SQLite INTEGERs agree with [Z] on the millisecond values that
      [Date.now()] produces and on their sums and differences (all far below
      2^53), so no wrap-around is written out.
    - A SQL table with a PRIMARY KEY is a [gmap] from the key to the other
      columns: [sessions] is keyed by [id], [file_stats] by [file_path].
    - [Date.now()] is a read of the host clock.  The clock is an oracle
      [clock : nat -> Z] together with the number of reads done so far, so
      two reads inside one call may return different milliseconds. *)

From Stdlib Require Import ZArith Ascii String List.
From stdpp Require Import base option gmap strings list fin_maps fin_sets sorting pretty.

Open Scope Z_scope.

(** ** Data model (database.ts, interfaces and CREATE TABLE statements) *)

(** A row of [sessions]; the [id] column is the key of the table. *)
Record Session := mkSession {
  file_path : string;
  project_path : option string;
  start_time : Z;
  end_time : option Z;
  duration_ms : option Z
}.

(** A row of [file_stats]; the [file_path] column is the key of the table. *)
Record FileStats := mkFileStats {
  fs_project_path : option string;
  total_time_ms : Z;
  last_active : Z
}.

(** The SQLite database held by [DatabaseManager.db].  [sqlite_sequence] is
    the AUTOINCREMENT counter of [sessions]: the largest row id ever used. *)
Record Database := mkDatabase {
  sessions : gmap Z Session;
  file_stats : gmap string FileStats;
  sqlite_sequence : Z
}.

(** [new SQL.Database()] followed by [createTables()]. *)
Definition empty_database : Database :=
  {| sessions := ∅; file_stats := ∅; sqlite_sequence := 0 |}.

Record DatabaseManager := mkDatabaseManager {
  db : option Database;          (* [SqlJsDatabase | null] *)
  saveTimeout : bool             (* a debounced save is pending *)
}.

Record ActivityTracker := mkActivityTracker {
  currentSessionId : option Z;
  currentFilePath : option string;
  lastActivityTime : Z;
  heartbeatInterval : bool;      (* the setInterval handle is set *)
  disposables : nat;             (* number of registered listeners *)
  notified : nat                 (* calls of [notifySessionChange] so far *)
}.

(** What the program reads from and writes to its host. *)
Record Host := mkHost {
  clock : nat -> Z;              (* the successive results of [Date.now()] *)
  ticks : nat;                   (* clock reads done so far *)
  localMidnight : Z -> Z;        (* [setHours(0,0,0,0)] on a timestamp *)
  workspaceFolders : option (list string);
  disk : option Database         (* contents of timetracker.db *)
}.

Record World := mkWorld {
  host : Host;
  store : DatabaseManager;
  tracker : ActivityTracker
}.

(** ** The monad of methods: state that survives a [throw] *)

Inductive Result (A : Type) : Type :=
| Ok (a : A)
| Throw (msg : string).
Arguments Ok {A} a.
Arguments Throw {A} msg.

Definition M (A : Type) : Type := World -> Result A * World.

Definition ret {A} (a : A) : M A := fun w => (Ok a, w).

Definition bind {A B} (m : M A) (k : A -> M B) : M B :=
  fun w =>
    match m w with
    | (Ok a, w') => k a w'
    | (Throw msg, w') => (Throw msg, w')
    end.

Definition throw {A} (msg : string) : M A := fun w => (Throw msg, w).

Definition get : M World := fun w => (Ok w, w).

Definition modify (f : World -> World) : M unit := fun w => (Ok tt, f w).

#[global] Instance M_ret : MRet M := @ret.
#[global] Instance M_bind : MBind M := fun A B k m => bind m k.

(** Field updates. *)
Definition with_ticks (n : nat) (h : Host) : Host :=
  {| clock := clock h; ticks := n; localMidnight := localMidnight h;
     workspaceFolders := workspaceFolders h; disk := disk h |}.

Definition with_disk (d : option Database) (h : Host) : Host :=
  {| clock := clock h; ticks := ticks h; localMidnight := localMidnight h;
     workspaceFolders := workspaceFolders h; disk := d |}.

Definition with_host (h : Host) (w : World) : World :=
  {| host := h; store := store w; tracker := tracker w |}.

Definition with_store (s : DatabaseManager) (w : World) : World :=
  {| host := host w; store := s; tracker := tracker w |}.

Definition with_tracker (t : ActivityTracker) (w : World) : World :=
  {| host := host w; store := store w; tracker := t |}.

Definition with_db (d : option Database) (s : DatabaseManager) : DatabaseManager :=
  {| db := d; saveTimeout := saveTimeout s |}.

Definition with_saveTimeout (b : bool) (s : DatabaseManager) : DatabaseManager :=
  {| db := db s; saveTimeout := b |}.

Definition set_currentSessionId (i : option Z) (t : ActivityTracker) : ActivityTracker :=
  {| currentSessionId := i; currentFilePath := currentFilePath t;
     lastActivityTime := lastActivityTime t;
     heartbeatInterval := heartbeatInterval t; disposables := disposables t;
     notified := notified t |}.

Definition set_currentFilePath (f : option string) (t : ActivityTracker) : ActivityTracker :=
  {| currentSessionId := currentSessionId t; currentFilePath := f;
     lastActivityTime := lastActivityTime t;
     heartbeatInterval := heartbeatInterval t; disposables := disposables t;
     notified := notified t |}.

Definition set_lastActivityTime (z : Z) (t : ActivityTracker) : ActivityTracker :=
  {| currentSessionId := currentSessionId t; currentFilePath := currentFilePath t;
     lastActivityTime := z;
     heartbeatInterval := heartbeatInterval t; disposables := disposables t;
     notified := notified t |}.

Definition set_heartbeatInterval (b : bool) (t : ActivityTracker) : ActivityTracker :=
  {| currentSessionId := currentSessionId t; currentFilePath := currentFilePath t;
     lastActivityTime := lastActivityTime t;
     heartbeatInterval := b; disposables := disposables t;
     notified := notified t |}.

Definition set_disposables (n : nat) (t : ActivityTracker) : ActivityTracker :=
  {| currentSessionId := currentSessionId t; currentFilePath := currentFilePath t;
     lastActivityTime := lastActivityTime t;
     heartbeatInterval := heartbeatInterval t; disposables := n;
     notified := notified t |}.

Definition set_notified (n : nat) (t : ActivityTracker) : ActivityTracker :=
  {| currentSessionId := currentSessionId t; currentFilePath := currentFilePath t;
     lastActivityTime := lastActivityTime t;
     heartbeatInterval := heartbeatInterval t; disposables := disposables t;
     notified := n |}.

Definition modify_tracker (f : ActivityTracker -> ActivityTracker) : M unit :=
  modify (fun w => with_tracker (f (tracker w)) w).

Definition modify_store (f : DatabaseManager -> DatabaseManager) : M unit :=
  modify (fun w => with_store (f (store w)) w).

(** [Date.now()] (and [new Date()]): one read of the clock. *)
Definition Date_now : M Z :=
  fun w =>
    (Ok (clock (host w) (ticks (host w))),
     with_host (with_ticks (S (ticks (host w))) (host w)) w).

(** ** DatabaseManager (database.ts) *)

(** SQLite's AUTOINCREMENT rule: the new row id is one more than the largest
    row id that ever existed in the table, which is the larger of the
    [sqlite_sequence] entry and the largest id now present. *)
Definition max_rowid (m : gmap Z Session) : Z :=
  map_fold (fun k _ acc => Z.max k acc) 0 m.

Definition next_rowid (d : Database) : Z :=
  1 + Z.max (sqlite_sequence d) (max_rowid (sessions d)).

(** [INSERT INTO sessions (file_path, project_path, start_time) VALUES (?,?,?)];
    the returned id is what [SELECT last_insert_rowid()] reads next. *)
Definition insert_session (filePath : string) (projectPath : option string)
    (startTime : Z) (d : Database) : Z * Database :=
  let i := next_rowid d in
  (i, {| sessions := <[i := {| file_path := filePath; project_path := projectPath;
                                start_time := startTime; end_time := None;
                                duration_ms := None |}]> (sessions d);
         file_stats := file_stats d;
         sqlite_sequence := i |}).

(** [UPDATE sessions SET end_time = ?, duration_ms = ? WHERE id = ?]. *)
Definition close_row (endTime durationMs : Z) (s : Session) : Session :=
  {| file_path := file_path s; project_path := project_path s;
     start_time := start_time s; end_time := Some endTime;
     duration_ms := Some durationMs |}.

Definition update_session_end (sessionId endTime durationMs : Z) (d : Database) : Database :=
  {| sessions := alter (close_row endTime durationMs) sessionId (sessions d);
     file_stats := file_stats d;
     sqlite_sequence := sqlite_sequence d |}.

(** [UPDATE file_stats SET total_time_ms = total_time_ms + ?, last_active = ?
    WHERE file_path = ?]. *)
Definition add_time (durationMs timestamp : Z) (r : FileStats) : FileStats :=
  {| fs_project_path := fs_project_path r;
     total_time_ms := total_time_ms r + durationMs;
     last_active := timestamp |}.

Definition with_file_stats (m : gmap string FileStats) (d : Database) : Database :=
  {| sessions := sessions d; file_stats := m; sqlite_sequence := sqlite_sequence d |}.

Definition modify_db (f : Database -> Database) : M unit :=
  modify_store (fun s => with_db (f <$> db s) s).

(** The guard [if (!this.db) throw new Error('Database not initialized')]. *)
Definition require_db : M Database :=
  w ← get;
  match db (store w) with
  | Some d => ret d
  | None => throw "Database not initialized"
  end.

(** [scheduleSave]: clears a pending timer and sets a new one. *)
Definition scheduleSave : M unit :=
  modify_store (with_saveTimeout true).

(** [saveToDisk]: exports the database and overwrites the file. *)
Definition saveToDisk : M unit :=
  w ← get;
  match db (store w) with
  | None => ret tt
  | Some d => modify (fun w => with_host (with_disk (Some d) (host w)) w)
  end.

(** [initialize]: loads timetracker.db when the file exists, else starts
    empty; [createTables] changes nothing in a database that has the tables
    and schedules a save. *)
Definition initialize : M unit :=
  w ← get;
  modify_store (with_db (Some (default empty_database (disk (host w)))));;
  scheduleSave.

Definition startSession (filePath : string) (projectPath : option string) : M Z :=
  d ← require_db;
  startTime ← Date_now;
  let '(sessionId, d') := insert_session filePath projectPath startTime d in
  modify_db (fun _ => d');;
  scheduleSave;;
  ret sessionId.

Definition updateFileStats (filePath : string) (projectPath : option string)
    (durationMs timestamp : Z) : M unit :=
  w ← get;
  match db (store w) with
  | None => ret tt
  | Some d =>
      match file_stats d !! filePath with
      | Some _ =>
          modify_db (fun d =>
            with_file_stats (alter (add_time durationMs timestamp) filePath (file_stats d)) d)
      | None =>
          modify_db (fun d =>
            with_file_stats
              (<[filePath := {| fs_project_path := projectPath;
                                total_time_ms := durationMs;
                                last_active := timestamp |}]> (file_stats d)) d)
      end
  end.

Definition endSession (sessionId : Z) : M unit :=
  d ← require_db;
  match sessions d !! sessionId with
  | None => ret tt
  | Some row =>
      let filePath := file_path row in
      let projectPath := project_path row in
      let startTime := start_time row in
      endTime ← Date_now;
      let durationMs := endTime - startTime in
      modify_db (update_session_end sessionId endTime durationMs);;
      updateFileStats filePath projectPath durationMs endTime;;
      scheduleSave
  end.

Definition getFileStats (filePath : string) : M (option FileStats) :=
  d ← require_db;
  ret (file_stats d !! filePath).

(** [SELECT ... FROM sessions WHERE end_time IS NULL], with the row ids. *)
Definition ongoing (m : gmap Z Session) : list (Z * Session) :=
  map_to_list (filter (fun p => end_time p.2 = None) m).

Definition getOngoingSessions : M (list (Z * Session)) :=
  d ← require_db;
  ret (ongoing (sessions d)).

(** The rows [WHERE start_time >= ?]. *)
Definition started_since (t : Z) (m : gmap Z Session) : gmap Z Session :=
  filter (fun p => t <= start_time p.2) m.

(** [SUM(duration_ms)] skips NULL; [COALESCE(.., 0)] covers the empty sum. *)
Definition sum_duration (m : gmap Z Session) : Z :=
  map_fold (fun _ s acc => default 0 (duration_ms s) + acc) 0 m.

(** The set behind [COUNT(DISTINCT file_path)]. *)
Definition distinct_files (m : gmap Z Session) : gset string :=
  map_to_set (fun _ s => file_path s) m.

Record TodayStats := mkTodayStats { totalTime : Z; fileCount : Z }.

Definition getTodayStats : M TodayStats :=
  d ← require_db;
  todayStart ← Date_now;
  w ← get;
  let todayStartMs := localMidnight (host w) todayStart in
  let rows := started_since todayStartMs (sessions d) in
  ret {| totalTime := sum_duration rows;
         fileCount := Z.of_nat (size (distinct_files rows)) |}.

(** The loop of [close()]: [endSession] on every ongoing row with a truthy id. *)
Fixpoint end_all (l : list (Z * Session)) : M unit :=
  match l with
  | [] => ret tt
  | (i, _) :: l' => (if decide (i = 0) then ret tt else endSession i) ;; end_all l'
  end.

Definition close : M unit :=
  modify_store (with_saveTimeout false);;
  w ← get;
  match db (store w) with
  | None => ret tt
  | Some _ =>
      ongoingSessions ← getOngoingSessions;
      end_all ongoingSessions;;
      saveToDisk;;
      modify_store (with_db None)
  end.

(** ** ActivityTracker (tracker.ts) *)

Definition IDLE_TIMEOUT_MS : Z := 2 * 60 * 1000.
Definition HEARTBEAT_INTERVAL_MS : Z := 30 * 1000.

(** The state left by the constructor. *)
Definition new_tracker : ActivityTracker :=
  {| currentSessionId := None; currentFilePath := None; lastActivityTime := 0;
     heartbeatInterval := false; disposables := 0; notified := 0 |}.

(** The registered callbacks only read the tracker (the status bar redraws
    itself); what is kept of a notification is that it happened. *)
Definition notifySessionChange : M unit :=
  modify_tracker (fun t => set_notified (S (notified t)) t).

Definition endCurrentSession : M unit :=
  w ← get;
  match currentSessionId (tracker w) with
  | Some sessionId =>
      endSession sessionId;;
      modify_tracker (set_currentSessionId None);;
      modify_tracker (set_currentFilePath None);;
      notifySessionChange
  | None => ret tt
  end.

(** The body of [getProjectPath] on the value of
    [vscode.workspace.workspaceFolders]: the first folder, in order, whose
    path [filePath] starts with. *)
Definition resolve_project (filePath : string) (folders : option (list string)) : option string :=
  match folders with
  | None => None
  | Some l => List.find (fun folder => String.prefix folder filePath) l
  end.

Definition getProjectPath (filePath : string) : M (option string) :=
  w ← get;
  ret (resolve_project filePath (workspaceFolders (host w))).

Definition startNewSession (filePath : string) : M unit :=
  endCurrentSession;;
  projectPath ← getProjectPath filePath;
  sessionId ← startSession filePath projectPath;
  modify_tracker (set_currentSessionId (Some sessionId));;
  modify_tracker (set_currentFilePath (Some filePath));;
  now ← Date_now;
  modify_tracker (set_lastActivityTime now);;
  notifySessionChange.

Definition onActivity (filePath : string) : M unit :=
  now ← Date_now;
  modify_tracker (set_lastActivityTime now);;
  w ← get;
  if bool_decide (currentFilePath (tracker w) = Some filePath)
     && bool_decide (currentSessionId (tracker w) ≠ None)
  then ret tt
  else startNewSession filePath.

Definition onEditorChange (filePath : string) : M unit :=
  w ← get;
  (if bool_decide (currentFilePath (tracker w) ≠ Some filePath)
   then startNewSession filePath
   else ret tt);;
  now ← Date_now;
  modify_tracker (set_lastActivityTime now).

Definition checkIdle : M unit :=
  w ← get;
  match currentSessionId (tracker w) with
  | None => ret tt
  | Some _ =>
      now ← Date_now;
      w ← get;
      let idleTime := now - lastActivityTime (tracker w) in
      if bool_decide (IDLE_TIMEOUT_MS <= idleTime)
      then endCurrentSession
      else ret tt
  end.

(** The [onDidChangeWindowState] listener registered by [start].
    [activeEditor] is the path of [vscode.window.activeTextEditor] when there
    is one and its scheme is 'file'. *)
Definition onDidChangeWindowState (focused : bool) (activeEditor : option string) : M unit :=
  if focused
  then match activeEditor with
       | Some fsPath => onActivity fsPath
       | None => ret tt
       end
  else
    now ← Date_now;
    modify_tracker (set_lastActivityTime (now - IDLE_TIMEOUT_MS)).

Definition isTracking (w : World) : bool :=
  bool_decide (currentSessionId (tracker w) ≠ None).

Definition getCurrentFilePath (w : World) : option string :=
  currentFilePath (tracker w).

Definition start (activeEditor : option string) : M unit :=
  modify_tracker (fun t => set_disposables (4 + disposables t) t);;
  modify_tracker (set_heartbeatInterval true);;
  match activeEditor with
  | Some fsPath => onActivity fsPath
  | None => ret tt
  end.

Definition stop : M unit :=
  modify_tracker (set_heartbeatInterval false);;
  endCurrentSession;;
  modify_tracker (set_disposables 0).

(** ** Event sequences *)

(** What the host can deliver to a started tracker: the four listeners, the
    heartbeat, and [stop]. *)
Inductive Event :=
| TextChange (fsPath : string)          (* onDidChangeTextDocument *)
| ActiveEditor (fsPath : string)        (* onDidChangeActiveTextEditor *)
| WindowState (focused : bool) (activeEditor : option string)
| Selection (fsPath : string)           (* onDidChangeTextEditorSelection *)
| Heartbeat                             (* the setInterval callback *)
| Stop.

Definition deliver (e : Event) : M unit :=
  match e with
  | TextChange f => onActivity f
  | ActiveEditor f => onEditorChange f
  | WindowState focused ed => onDidChangeWindowState focused ed
  | Selection f => onActivity f
  | Heartbeat => checkIdle
  | Stop => stop
  end.

(** An exception thrown by a listener is reported by the host and the next
    event is delivered to the state the listener left. *)
Fixpoint run (es : list Event) (w : World) : World :=
  match es with
  | [] => w
  | e :: es' => run es' (deliver e w).2
  end.

(** Calls of the store alone, for the aggregate law. *)
Inductive StoreCall :=
| CallStart (filePath : string) (projectPath : option string)
| CallEnd (sessionId : Z).

Definition call (c : StoreCall) : M unit :=
  match c with
  | CallStart f p => startSession f p;; ret tt
  | CallEnd i => endSession i
  end.

Fixpoint calls (cs : list StoreCall) (w : World) : World :=
  match cs with
  | [] => w
  | c :: cs' => calls cs' (call c w).2
  end.

(** A world for examples: the clock reads [t0], [t0 + dt], [t0 + 2 dt], ... *)
Definition linear_clock (t0 dt : Z) : nat -> Z := fun n => t0 + dt * Z.of_nat n.

Definition fresh_world (c : nat -> Z) (folders : option (list string)) : World :=
  {| host := {| clock := c; ticks := 0; localMidnight := fun t => t - t mod 86400000;
                workspaceFolders := folders; disk := None |};
     store := {| db := Some empty_database; saveTimeout := true |};
     tracker := new_tracker |}.

(** ** Notions used in the statements, and example worlds *)

(** The next reading of the clock, and the world after it was read. *)
Definition now (w : World) : Z := clock (host w) (ticks (host w)).

Definition tick (w : World) : World :=
  with_host (with_ticks (S (ticks (host w))) (host w)) w.

(** The database after [endSession] found [row] under [i] and read [t]. *)
Definition ended_database (i t : Z) (row : Session) (d : Database) : Database :=
  let durationMs := t - start_time row in
  {| sessions := alter (close_row t durationMs) i (sessions d);
     file_stats :=
       match file_stats d !! file_path row with
       | Some _ => alter (add_time durationMs t) (file_path row) (file_stats d)
       | None => <[file_path row := {| fs_project_path := project_path row;
                                       total_time_ms := durationMs;
                                       last_active := t |}]> (file_stats d)
       end;
     sqlite_sequence := sqlite_sequence d |}.

Ltac unfold_m :=
  repeat progress
    unfold mbind, M_bind, bind, ret, throw, get, modify_db, modify_store,
      modify_tracker, modify, Date_now, require_db, scheduleSave.

(** [SELECT SUM(duration_ms) FROM sessions WHERE file_path = f AND end_time
    IS NOT NULL]: the time of the closed sessions of [f]. *)
Definition closed_time (f : string) (m : gmap Z Session) : Z :=
  sum_duration (filter (fun p => file_path p.2 = f ∧ is_Some (end_time p.2)) m).

(** [total_time_ms] of [f], 0 when [f] has no row (the column's default). *)
Definition file_total (d : Database) (f : string) : Z :=
  match file_stats d !! f with
  | Some r => total_time_ms r
  | None => 0
  end.

Definition aggregates_consistent (d : Database) : Prop :=
  ∀ f, file_total d f = closed_time f (sessions d).

(** A [CallEnd] that does not name a closed session. *)
Definition open_or_unknown (i : Z) (w : World) : bool :=
  match db (store w) with
  | Some d =>
      match sessions d !! i with
      | Some row => bool_decide (end_time row = None)
      | None => true
      end
  | None => true
  end.

Fixpoint closes_open_sessions (cs : list StoreCall) (w : World) : bool :=
  match cs with
  | [] => true
  | c :: cs' =>
      match c with
      | CallStart _ _ => true
      | CallEnd i => open_or_unknown i w
      end && closes_open_sessions cs' (call c w).2
  end.

(** One session of /ws/a.ts, opened at 1000 and closed at 1500; the clock
    advances 500 ms per reading. *)
Definition closed_once : World :=
  calls [CallStart "/ws/a.ts" (Some "/ws"); CallEnd 1]
    (fresh_world (linear_clock 1000 500) (Some ["/ws"])).

(** /ws/a.ts was first tracked outside any workspace folder (its row has no
    project), then opened again under /ws; session 2 is still open. *)
Definition reopened_in_project : World :=
  calls [CallStart "/ws/a.ts" None; CallEnd 1; CallStart "/ws/a.ts" (Some "/ws")]
    (fresh_world (linear_clock 1000 500) (Some ["/ws"])).

(** A single session of /ws/a.ts, opened an hour after midnight and still
    open. *)
Definition one_open_session : World :=
  run [TextChange "/ws/a.ts"] (fresh_world (linear_clock 90000000 1000) (Some ["/ws"])).

(** The tracker after [endCurrentSession] forgot its session. *)
Definition session_cleared (t : ActivityTracker) : ActivityTracker :=
  set_notified (S (notified t)) (set_currentFilePath None (set_currentSessionId None t)).

(** The tracker after [startNewSession] recorded session [i] of [f] at [t]. *)
Definition session_started (i : Z) (f : string) (t : Z) (tr : ActivityTracker) : ActivityTracker :=
  set_notified (S (notified tr))
    (set_lastActivityTime t
       (set_currentFilePath (Some f) (set_currentSessionId (Some i) tr))).

Definition touch (t : Z) (w : World) : World :=
  with_tracker (set_lastActivityTime t (tracker w)) w.

(** What the store keeps of the tracker's session [c] once it was ended at
    [t]: [endSession] does nothing for an id without a row. *)
Definition closed_by (c : option Z) (t : Z) (d : Database) : Database :=
  match c with
  | Some i =>
      match sessions d !! i with
      | Some row => ended_database i t row d
      | None => d
      end
  | None => d
  end.

(** The pairs (current session of the tracker, database) before and after
    one event: nothing happens, the session is ended, or it is ended and a
    new one is started. *)
Inductive session_step : option Z * Database -> option Z * Database -> Prop :=
| step_stay c d :
    session_step (c, d) (c, d)
| step_close c d t :
    session_step (c, d) (None, closed_by c t d)
| step_switch c d t f p t' :
    session_step (c, d)
      (Some (next_rowid (closed_by c t d)), (insert_session f p t' (closed_by c t d)).2).

Definition view (w : World) (d : Database) : option Z * Database :=
  (currentSessionId (tracker w), d).

(** [base] holds the ids that were in the table before the tracker started.
    The tracker's session is a row of its own, and every other row of its
    own is closed. *)
Definition single_open (base : gset Z) (v : option Z * Database) : Prop :=
  base ⊆ dom (sessions v.2) ∧
  (∀ i, v.1 = Some i -> (i ∉ base) ∧ is_Some (sessions v.2 !! i)) ∧
  (∀ i s, sessions v.2 !! i = Some s -> end_time s = None -> i ∉ base -> v.1 = Some i).

(** The tracker holds a session of /ws/a.ts and the database was closed
    under it ([close] is public); each clock reading is 200 s after the
    previous one, so the session is idle at the next heartbeat. *)
Definition store_closed_while_tracking : World :=
  (close (run [TextChange "/ws/a.ts"]
            (fresh_world (linear_clock 0 200000) (Some ["/ws"])))).2.

(** /ws/a.ts is being tracked and the clock stands at 5000. *)
Definition tracking_a : World :=
  run [TextChange "/ws/a.ts"] (fresh_world (linear_clock 5000 0) (Some ["/ws"])).

Definition session_closed_in (i : Z) (w : World) : Prop :=
  ∃ d s t, db (store w) = Some d ∧ sessions d !! i = Some s ∧ end_time s = Some t.

(** Whether an event other than the heartbeat takes the tracker's session
    away: activity on another file does, [stop] does, nothing else; the
    clock is not consulted. *)
Definition event_ends_session (e : Event) (t : ActivityTracker) : bool :=
  match e with
  | TextChange f | Selection f | WindowState true (Some f) | ActiveEditor f =>
      bool_decide (currentFilePath t ≠ Some f)
  | WindowState true None => false
  | WindowState false _ => false
  | Heartbeat => false
  | Stop => true
  end.

(** The tracker's session is an open row and the totals match the closed
    sessions. *)
Definition tracking_consistent (v : option Z * Database) : Prop :=
  aggregates_consistent v.2 ∧
  ∀ i, v.1 = Some i -> ∃ row, sessions v.2 !! i = Some row ∧ end_time row = None.

(** The clock of the idle scenario: activity at 0, then one reading per
    heartbeat, 30 s apart, until the heartbeat at 120 s. *)
Definition heartbeat_clock : nat -> Z :=
  fun n => HEARTBEAT_INTERVAL_MS * Z.of_nat (Nat.min (n - 2) 4).

(** ** Further notions: the store *)

(** Rows of [file_stats] exist for the files that have a closed session, and
    for no others. *)
Definition rows_iff_closed (d : Database) : Prop :=
  ∀ f, is_Some (file_stats d !! f) ↔
       ∃ i s, sessions d !! i = Some s ∧ file_path s = f ∧ is_Some (end_time s).

(** From the next reading on, the clock never goes back. *)
Definition clock_monotone (w : World) : Prop :=
  ∀ n m, (ticks (host w) <= n)%nat -> (n <= m)%nat -> clock (host w) n <= clock (host w) m.

(** No session starts after the next reading of the clock. *)
Definition started_in_past (w : World) (d : Database) : Prop :=
  ∀ i s, sessions d !! i = Some s -> start_time s <= now w.

(** ** Further store methods: the sorted queries *)

(** [ORDER BY total_time_ms DESC] on rows of [file_stats].  SQLite leaves the
    order of rows with equal totals open; [merge_sort] picks one, and nothing
    below depends on which. *)
Definition by_total_desc (a b : string * FileStats) : Prop :=
  total_time_ms b.2 <= total_time_ms a.2.

#[global] Instance by_total_desc_dec (a b : string * FileStats) :
  Decision (by_total_desc a b) := decide (total_time_ms b.2 <= total_time_ms a.2).

Definition getAllFileStats : M (list (string * FileStats)) :=
  d ← require_db;
  ret (merge_sort by_total_desc (map_to_list (file_stats d))).

(** The rows [WHERE project_path = ?]. *)
Definition files_of (projectPath : string) (m : gmap string FileStats) : gmap string FileStats :=
  filter (fun p => fs_project_path p.2 = Some projectPath) m.

Definition getFileStatsByProject (projectPath : string) : M (list (string * FileStats)) :=
  d ← require_db;
  ret (merge_sort by_total_desc (map_to_list (files_of projectPath (file_stats d)))).

(** A row of [getProjectStats]; [project_path] is its key. *)
Record ProjectStats := mkProjectStats {
  ps_total_time_ms : Z;
  file_count : Z;
  ps_last_active : Z
}.

(** One more row of [file_stats] in a group: [SUM(total_time_ms)],
    [COUNT( * )] and [MAX(last_active)] so far. *)
Definition add_to_project (r : FileStats) (o : option ProjectStats) : option ProjectStats :=
  Some match o with
       | None => {| ps_total_time_ms := total_time_ms r; file_count := 1;
                    ps_last_active := last_active r |}
       | Some a => {| ps_total_time_ms := ps_total_time_ms a + total_time_ms r;
                      file_count := file_count a + 1;
                      ps_last_active := Z.max (ps_last_active a) (last_active r) |}
       end.

(** [FROM file_stats WHERE project_path IS NOT NULL GROUP BY project_path]. *)
Definition project_groups (m : gmap string FileStats) : gmap string ProjectStats :=
  map_fold (fun _ r acc =>
              match fs_project_path r with
              | Some p => partial_alter (add_to_project r) p acc
              | None => acc
              end) ∅ m.

Definition by_project_total_desc (a b : string * ProjectStats) : Prop :=
  ps_total_time_ms b.2 <= ps_total_time_ms a.2.

#[global] Instance by_project_total_desc_dec (a b : string * ProjectStats) :
  Decision (by_project_total_desc a b) :=
  decide (ps_total_time_ms b.2 <= ps_total_time_ms a.2).

Definition getProjectStats : M (list (string * ProjectStats)) :=
  d ← require_db;
  ret (merge_sort by_project_total_desc (map_to_list (project_groups (file_stats d)))).

(** [SUM(total_time_ms)] over rows of [file_stats]. *)
Definition sum_total (m : gmap string FileStats) : Z :=
  map_fold (fun _ r acc => total_time_ms r + acc) 0 m.

(** What a row of [getProjectStats] says about the files of its project. *)
Definition is_project_aggregate (m : gmap string FileStats) (p : string)
    (a : ProjectStats) : Prop :=
  files_of p m ≠ ∅ ∧
  ps_total_time_ms a = sum_total (files_of p m) ∧
  file_count a = Z.of_nat (size (files_of p m)) ∧
  (∃ f r, files_of p m !! f = Some r ∧ last_active r = ps_last_active a) ∧
  (∀ f r, files_of p m !! f = Some r -> last_active r <= ps_last_active a).

(** [fileStats.reduce((sum, f) => sum + f.total_time_ms, 0)], the number
    under 'Total Time Tracked' in [generateFullReport]. *)
Definition totalTimeAllFiles (fileStats : list (string * FileStats)) : Z :=
  foldl (fun sum f => sum + total_time_ms f.2) 0 fileStats.

(** [SELECT SUM(duration_ms) FROM sessions WHERE end_time IS NOT NULL]. *)
Definition closed_time_all (m : gmap Z Session) : Z :=
  sum_duration (filter (fun p => is_Some (end_time p.2)) m).

(** ** Further notions: the tracker *)

(** [currentSessionId] and [currentFilePath] are null together. *)
Definition session_fields_paired (t : ActivityTracker) : Prop :=
  currentSessionId t = None ↔ currentFilePath t = None.

(** How one call may move the two session fields: not at all, both to
    null, or both to a value. *)
Definition fields_step (t t' : ActivityTracker) : Prop :=
  (currentSessionId t' = currentSessionId t ∧ currentFilePath t' = currentFilePath t) ∨
  (currentSessionId t' = None ∧ currentFilePath t' = None) ∨
  (is_Some (currentSessionId t') ∧ is_Some (currentFilePath t')).

(** The tracker's session is an open row of its file, with the project that
    [getProjectPath] finds for the file. *)
Definition tracks_open_row (w : World) : Prop :=
  ∀ i, currentSessionId (tracker w) = Some i ->
  ∃ d row, db (store w) = Some d ∧ sessions d !! i = Some row ∧
           end_time row = None ∧
           currentFilePath (tracker w) = Some (file_path row) ∧
           project_path row =
             resolve_project (file_path row) (workspaceFolders (host w)).

Definition getSessionStartTime (w : World) : option Z :=
  match currentSessionId (tracker w) with
  | None => None
  | Some _ => Some (lastActivityTime (tracker w))
  end.

(** The host is as it was, except that the clock may have been read. *)
Definition host_kept (w w' : World) : Prop :=
  clock (host w') = clock (host w) ∧
  localMidnight (host w') = localMidnight (host w) ∧
  workspaceFolders (host w') = workspaceFolders (host w) ∧
  disk (host w') = disk (host w) ∧
  (ticks (host w) <= ticks (host w'))%nat.

(** ** The extension (extension.ts) *)

(** [try { ... } catch (error) { ... }]. *)
Definition try_catch {A} (body : M A) (handler : string -> M A) : M A :=
  fun w =>
    match body w with
    | (Ok a, w') => (Ok a, w')
    | (Throw msg, w') => handler msg w'
    end.

(** [activate]: the status bar and the reporter are other modules; what
    [statusBar.start()] does is a parameter, and registering the commands
    changes nothing here.  The handler logs and shows the error. *)
Definition activate (activeEditor : option string) (statusBarStart : M unit) : M unit :=
  try_catch
    (initialize;;
     modify_tracker (fun _ => new_tracker);;
     start activeEditor;;
     statusBarStart)
    (fun _ => ret tt).

(** [deactivate], after an [activate] that set [tracker], [statusBar] and
    [db]; [statusBar.stop()] is a parameter. *)
Definition deactivate (statusBarStop : M unit) : M unit :=
  try_catch
    (stop;;
     statusBarStop;;
     close)
    (fun _ => ret tt).

(** The state a crash leaves for the next start: no handle, no tracker
    state, and a file in which session 1 of /ws/a.ts is still open. *)
Definition crashed_world : World :=
  {| host := with_disk (db (store one_open_session)) (host one_open_session);
     store := {| db := None; saveTimeout := false |};
     tracker := new_tracker |}.

(** ** The reporter (reporter.ts) *)

(** [formatDuration].  [Math.floor(x / n)] is [x / n] on [Z]; [%] is the
    remainder that takes the sign of the dividend, [Z.rem]; a number in a
    template literal prints in decimal. *)
Definition formatDuration (ms : Z) : string :=
  let seconds := ms / 1000 in
  let minutes := seconds / 60 in
  let hours := minutes / 60 in
  let days := hours / 24 in
  if bool_decide (0 < days) then
    let remainingHours := Z.rem hours 24 in
    pretty days +:+ "d " +:+ pretty remainingHours +:+ "h"
  else if bool_decide (0 < hours) then
    let remainingMinutes := Z.rem minutes 60 in
    pretty hours +:+ "h " +:+ pretty remainingMinutes +:+ "m"
  else if bool_decide (0 < minutes) then
    let remainingSeconds := Z.rem seconds 60 in
    pretty minutes +:+ "m " +:+ pretty remainingSeconds +:+ "s"
  else
    pretty seconds +:+ "s".

(** The double quote and the line feed. *)
Definition dquote : Ascii.ascii := "034"%char.
Definition newline : string := String "010"%char EmptyString.

(** The global [replace] of every double quote by two double quotes. *)
Fixpoint escape_quotes (s : string) : string :=
  match s with
  | EmptyString => EmptyString
  | String c s' =>
      if Ascii.eqb c dquote
      then String dquote (String dquote (escape_quotes s'))
      else String c (escape_quotes s')
  end.

(** The template that puts an escaped value between two quotes. *)
Definition quoted (s : string) : string :=
  String dquote (escape_quotes s +:+ String dquote EmptyString).

(** One data line of [generateCSV].  An empty [project_path] is falsy, like
    null.  [toISOString] stands for [new Date(t).toISOString()]. *)
Definition csv_line (toISOString : Z -> string) (file : string * FileStats) : string :=
  let escapedFilePath := quoted file.1 in
  let escapedProjectPath :=
    match fs_project_path file.2 with
    | Some p => if bool_decide (p = EmptyString) then EmptyString else quoted p
    | None => EmptyString
    end in
  let timeFormatted := formatDuration (total_time_ms file.2) in
  let lastActive := toISOString (last_active file.2) in
  escapedFilePath +:+ "," +:+ escapedProjectPath +:+ "," +:+
  pretty (total_time_ms file.2) +:+ "," +:+ timeFormatted +:+ "," +:+ lastActive.

Definition generateCSV (toISOString : Z -> string) (fileStats : list (string * FileStats)) : string :=
  String.concat newline
    ("file_path,project_path,total_time_ms,total_time_formatted,last_active"
     :: map (csv_line toISOString) fileStats).

(** A reader of one quoted CSV field (RFC 4180): after the opening quote, a
    doubled quote is a quote of the value and a single one ends the field.
    It returns the value and the text after the field. *)
Fixpoint read_quoted_body (s : string) : option (string * string) :=
  match s with
  | EmptyString => None
  | String c s' =>
      if Ascii.eqb c dquote
      then match s' with
           | String c' s'' =>
               if Ascii.eqb c' dquote
               then (fun r => (String dquote r.1, r.2)) <$> read_quoted_body s''
               else Some (EmptyString, s')
           | EmptyString => Some (EmptyString, EmptyString)
           end
      else (fun r => (String c r.1, r.2)) <$> read_quoted_body s'
  end.

Definition read_quoted (s : string) : option (string * string) :=
  match s with
  | String c s' => if Ascii.eqb c dquote then read_quoted_body s' else None
  | EmptyString => None
  end.

(** One session of /ws/a.ts that started a second before midnight and ended
    at midnight; the next clock reading is a second into the new day. *)
Definition spans_midnight : World :=
  calls [CallStart "/ws/a.ts" None; CallEnd 1]
    (fresh_world (linear_clock 86399000 1000) None).

(** * Verification *)

(** ** Concrete runs *)

(** Two files one after the other, then a heartbeat that finds nothing idle. *)
Example run_switch_files :
  let w := run [TextChange "/ws/a.ts"; TextChange "/ws/b.ts"; Heartbeat]
             (fresh_world (linear_clock 1000 10) (Some ["/ws"])) in
  currentSessionId (tracker w) = Some 2 ∧
  currentFilePath (tracker w) = Some "/ws/b.ts" ∧
  (map_to_list ∘ sessions <$> db (store w)) =
    Some [(2, {| file_path := "/ws/b.ts"; project_path := Some "/ws"; start_time := 1050;
                 end_time := None; duration_ms := None |});
          (1, {| file_path := "/ws/a.ts"; project_path := Some "/ws"; start_time := 1010;
                 end_time := Some 1040; duration_ms := Some 30 |})] ∧
  (map_to_list ∘ file_stats <$> db (store w)) =
    Some [("/ws/a.ts", {| fs_project_path := Some "/ws"; total_time_ms := 30;
                          last_active := 1040 |})].
Proof. vm_compute. done. Qed.

(** The idle scenario: a session opened at 0 with no further activity is
    still open after the heartbeats at 30, 60 and 90 s and is closed by the
    one at 120 s, with a duration of 120000 ms. *)
Example run_idle_timeout :
  let w0 := fresh_world heartbeat_clock None in
  let w3 := run [TextChange "/a.ts"; Heartbeat; Heartbeat; Heartbeat] w0 in
  let w4 := run [Heartbeat] w3 in
  isTracking w3 = true ∧
  isTracking w4 = false ∧
  (d ← db (store w4); sessions d !! 1) =
    Some {| file_path := "/a.ts"; project_path := None; start_time := 0;
            end_time := Some 120000; duration_ms := Some 120000 |} ∧
  (d ← db (store w4); file_stats d !! "/a.ts") =
    Some {| fs_project_path := None; total_time_ms := 120000; last_active := 120000 |}.
Proof. vm_compute. done. Qed.

(** ** What one call does, as equations *)

Lemma endSession_eq (i : Z) (w : World) :
  endSession i w =
  match db (store w) with
  | None => (Throw "Database not initialized", w)
  | Some d =>
      match sessions d !! i with
      | None => (Ok tt, w)
      | Some row =>
          (Ok tt,
           with_store {| db := Some (ended_database i (now w) row d);
                         saveTimeout := true |} (tick w))
      end
  end.
Proof.
  unfold endSession, updateFileStats. unfold_m.
  destruct w as [h [[d|] sv] t]; cbn; [|done].
  destruct (sessions d !! i) as [row|] eqn:Hrow; cbn; [|done].
  unfold ended_database, now, tick. cbn.
  destruct (file_stats d !! file_path row); cbn; done.
Qed.

Lemma startSession_eq (f : string) (p : option string) (w : World) :
  startSession f p w =
  match db (store w) with
  | None => (Throw "Database not initialized", w)
  | Some d =>
      (Ok (next_rowid d),
       with_store {| db := Some (insert_session f p (now w) d).2;
                     saveTimeout := true |} (tick w))
  end.
Proof.
  unfold startSession. unfold_m.
  destruct w as [h [[d|] sv] t]; cbn; done.
Qed.

Lemma endSession_unknown_id (i : Z) (w : World) (d : Database) :
  db (store w) = Some d -> sessions d !! i = None -> endSession i w = (Ok tt, w).
Proof. intros Hd Hi. rewrite endSession_eq, Hd, Hi. done. Qed.

Lemma endSession_tracker (i : Z) (w : World) :
  tracker (endSession i w).2 = tracker w.
Proof.
  rewrite endSession_eq. destruct (db (store w)) as [d|]; [|done].
  destruct (sessions d !! i); done.
Qed.

(** ** Sums over the sessions table *)

Lemma sum_duration_empty : sum_duration ∅ = 0.
Proof. unfold sum_duration. by rewrite map_fold_empty. Qed.

Lemma sum_duration_insert (m : gmap Z Session) (i : Z) (s : Session) :
  m !! i = None ->
  sum_duration (<[i := s]> m) = default 0 (duration_ms s) + sum_duration m.
Proof.
  intros Hi. unfold sum_duration.
  rewrite map_fold_insert_L; [done | intros; lia | done].
Qed.

(** One row taken out of a filtered sum. *)
Lemma sum_duration_filter_split (P : Z * Session -> Prop) `{!∀ x, Decision (P x)}
    (m : gmap Z Session) (i : Z) (s : Session) :
  m !! i = Some s ->
  sum_duration (filter P m) =
  (if decide (P (i, s)) then default 0 (duration_ms s) else 0)
  + sum_duration (filter P (delete i m)).
Proof.
  intros Hi. rewrite <- (insert_delete_id m i s Hi) at 1.
  rewrite map_filter_insert. destruct (decide (P (i, s))).
  - rewrite sum_duration_insert; [done|].
    rewrite map_filter_delete. apply lookup_delete_eq.
  - by rewrite delete_delete_eq.
Qed.

(** ** The aggregate law *)

Lemma max_rowid_ge (m : gmap Z Session) (i : Z) (s : Session) :
  m !! i = Some s -> i <= max_rowid m.
Proof.
  unfold max_rowid. revert i s.
  apply (map_fold_weak_ind (fun r m => ∀ i s, m !! i = Some s -> i <= r)).
  - intros i s. by rewrite lookup_empty.
  - intros j x m' r Hj IH i s. rewrite lookup_insert.
    case_decide; [intros; simplify_eq; lia|].
    intros Hi. specialize (IH _ _ Hi). lia.
Qed.

Lemma next_rowid_fresh (d : Database) : sessions d !! next_rowid d = None.
Proof.
  destruct (sessions d !! next_rowid d) as [s|] eqn:Hs; [|done].
  apply max_rowid_ge in Hs. unfold next_rowid in Hs. lia.
Qed.

Lemma closed_time_insert_open (f : string) (m : gmap Z Session) (i : Z) (s : Session) :
  m !! i = None -> end_time s = None ->
  closed_time f (<[i := s]> m) = closed_time f m.
Proof.
  intros Hi Hs. unfold closed_time.
  rewrite (sum_duration_filter_split _ (<[i := s]> m) i s) by apply lookup_insert_eq.
  rewrite delete_insert_id by done.
  rewrite decide_False; [lia|]. cbn. rewrite Hs. intros [_ [? ?]]. done.
Qed.

Lemma closed_time_close_row (f : string) (m : gmap Z Session) (i t dur : Z) (s : Session) :
  m !! i = Some s -> end_time s = None ->
  closed_time f (alter (close_row t dur) i m) =
  (if decide (file_path s = f) then dur else 0) + closed_time f m.
Proof.
  intros Hi Hs. unfold closed_time.
  rewrite (sum_duration_filter_split _ (alter _ _ _) i (close_row t dur s))
    by (rewrite lookup_alter_eq, Hi; done).
  rewrite (sum_duration_filter_split _ m i s Hi).
  rewrite delete_alter_eq.
  rewrite (decide_False (P := _ ∧ is_Some (end_time (i, s).2))).
  2:{ cbn. rewrite Hs. intros [_ [? ?]]. done. }
  cbn. destruct (decide (file_path s = f)).
  - rewrite decide_True; [lia | eauto].
  - rewrite decide_False; [lia | tauto].
Qed.

Lemma file_total_ended (i t : Z) (row : Session) (d : Database) (f : string) :
  file_total (ended_database i t row d) f =
  (if decide (file_path row = f) then t - start_time row else 0) + file_total d f.
Proof.
  unfold file_total, ended_database. cbn.
  destruct (file_stats d !! file_path row) as [r|] eqn:Hr.
  - rewrite lookup_alter. destruct (decide (file_path row = f)) as [<-|].
    + rewrite Hr. cbn. lia.
    + done.
  - rewrite lookup_insert. destruct (decide (file_path row = f)) as [<-|].
    + rewrite Hr. cbn. lia.
    + done.
Qed.

Lemma ended_database_consistent (i t : Z) (row : Session) (d : Database) :
  sessions d !! i = Some row -> end_time row = None ->
  aggregates_consistent d -> aggregates_consistent (ended_database i t row d).
Proof.
  intros Hi Hopen Hd f. rewrite file_total_ended, (Hd f).
  unfold ended_database; cbn.
  by rewrite (closed_time_close_row f _ i _ _ row).
Qed.

Lemma insert_session_consistent (f : string) (p : option string) (t : Z) (d : Database) :
  aggregates_consistent d -> aggregates_consistent (insert_session f p t d).2.
Proof.
  intros Hd g. unfold insert_session, file_total; cbn.
  rewrite closed_time_insert_open; [apply Hd | apply next_rowid_fresh | done].
Qed.

Lemma empty_database_consistent : aggregates_consistent empty_database.
Proof.
  intros f. unfold file_total, closed_time, empty_database; cbn.
  by rewrite lookup_empty, map_filter_empty, sum_duration_empty.
Qed.

Lemma call_consistent (c : StoreCall) (w : World) (d : Database) :
  db (store w) = Some d -> aggregates_consistent d ->
  match c with CallStart _ _ => true | CallEnd i => open_or_unknown i w end = true ->
  ∃ d', db (store (call c w).2) = Some d' ∧ aggregates_consistent d'.
Proof.
  intros Hd Hc Hv. destruct c as [f p|i]; cbn.
  - unfold mbind, M_bind, bind. rewrite startSession_eq, Hd. cbn.
    eexists; split; [done|]. by apply (insert_session_consistent f p).
  - rewrite endSession_eq, Hd. unfold open_or_unknown in Hv. rewrite Hd in Hv.
    destruct (sessions d !! i) as [row|] eqn:Hrow; cbn.
    + apply bool_decide_eq_true in Hv.
      eexists; split; [done|]. by apply ended_database_consistent.
    + eauto.
Qed.

Lemma calls_consistent (cs : list StoreCall) (w : World) (d : Database) :
  db (store w) = Some d -> aggregates_consistent d ->
  closes_open_sessions cs w = true ->
  ∃ d', db (store (calls cs w)) = Some d' ∧ aggregates_consistent d'.
Proof.
  revert w d. induction cs as [|c cs IH]; intros w d Hd Hc Hv; cbn.
  - eauto.
  - cbn in Hv. apply andb_true_iff in Hv as [Hv1 Hv2].
    destruct (call_consistent c w d Hd Hc Hv1) as (d1 & Hd1 & Hc1).
    by apply (IH _ d1).
Qed.

(** C2.  Closing an open session stamps it with the clock reading [now w]
    and [duration_ms = end_time - start_time], and updates the aggregate of
    its file once: the total grows by that duration (from 0 when the file
    had no row, which is then created), [last_active] is the end time, and
    no other row of either table changes.  Hence the totals equal the summed
    durations of the closed sessions after any sequence of opens and closes
    of open sessions that starts from consistent tables. *)
Theorem endSession_adds_duration_once :
  (∀ (w : World) (d : Database) (i : Z) (row : Session),
     db (store w) = Some d -> sessions d !! i = Some row -> end_time row = None ->
     ∃ d' r',
       endSession i w =
         (Ok tt, with_store {| db := Some d'; saveTimeout := true |} (tick w)) ∧
       sessions d' !! i = Some (close_row (now w) (now w - start_time row) row) ∧
       file_stats d' !! file_path row = Some r' ∧
       total_time_ms r' = file_total d (file_path row) + (now w - start_time row) ∧
       last_active r' = now w ∧
       (∀ f, f ≠ file_path row -> file_stats d' !! f = file_stats d !! f) ∧
       (∀ j, j ≠ i -> sessions d' !! j = sessions d !! j))
  ∧
  (∀ (cs : list StoreCall) (w : World) (d : Database),
     db (store w) = Some d -> aggregates_consistent d ->
     closes_open_sessions cs w = true ->
     ∃ d', db (store (calls cs w)) = Some d' ∧
           ∀ f, file_total d' f = closed_time f (sessions d')).
Proof.
  split.
  - intros w d i row Hd Hrow Hopen.
    pose proof (file_total_ended i (now w) row d (file_path row)) as Htot.
    rewrite decide_True in Htot by done.
    exists (ended_database i (now w) row d).
    assert (Hr : is_Some (file_stats (ended_database i (now w) row d) !! file_path row)).
    { unfold ended_database; cbn. destruct (file_stats d !! file_path row) eqn:Hr.
      - rewrite lookup_alter_eq, Hr. eauto.
      - rewrite lookup_insert_eq. eauto. }
    destruct Hr as [r' Hr']. exists r'.
    split; [by rewrite endSession_eq, Hd, Hrow|].
    split; [unfold ended_database; cbn; by rewrite lookup_alter_eq, Hrow|].
    split; [done|].
    split; [unfold file_total in Htot at 1; rewrite Hr' in Htot; lia|].
    split.
    { revert Hr'. unfold ended_database; cbn.
      destruct (file_stats d !! file_path row) as [r|] eqn:Hr.
      - rewrite lookup_alter_eq, Hr. cbn. by intros [= <-].
      - rewrite lookup_insert_eq. by intros [= <-]. }
    split.
    + intros f Hf. unfold ended_database; cbn.
      destruct (file_stats d !! file_path row).
      * by rewrite lookup_alter_ne.
      * by rewrite lookup_insert_ne.
    + intros j Hj. unfold ended_database; cbn. by rewrite lookup_alter_ne.
  - intros cs w d Hd Hc Hv. by apply (calls_consistent cs w d).
Qed.

(** ** Closing a session that is already closed *)

(** C1.  [endSession] has no guard for a row whose [end_time] is set: a
    second call with the id of the session closed at 1500 (500 ms) stamps it
    again at 2000 (1000 ms) and adds those 1000 ms to the 500 already in
    [file_stats]. *)
Theorem endSession_closed_id_counts_again :
  let w1 := closed_once in
  let w2 := (endSession 1 w1).2 in
  (d ← db (store w1); sessions d !! 1) =
    Some {| file_path := "/ws/a.ts"; project_path := Some "/ws"; start_time := 1000;
            end_time := Some 1500; duration_ms := Some 500 |} ∧
  (d ← db (store w1); file_stats d !! "/ws/a.ts") =
    Some {| fs_project_path := Some "/ws"; total_time_ms := 500; last_active := 1500 |} ∧
  (d ← db (store w2); sessions d !! 1) =
    Some {| file_path := "/ws/a.ts"; project_path := Some "/ws"; start_time := 1000;
            end_time := Some 2000; duration_ms := Some 1000 |} ∧
  (d ← db (store w2); file_stats d !! "/ws/a.ts") =
    Some {| fs_project_path := Some "/ws"; total_time_ms := 1500; last_active := 2000 |}.
Proof. vm_compute. done. Qed.

(** The general form: whatever [end_time] the row has, [endSession] restamps
    it and adds the new duration to the file's total. *)
Lemma endSession_ignores_end_time (w : World) (d : Database) (i : Z) (row : Session) :
  db (store w) = Some d -> sessions d !! i = Some row ->
  ∃ d', db (store (endSession i w).2) = Some d' ∧
        (end_time <$> sessions d' !! i) = Some (Some (now w)) ∧
        file_total d' (file_path row) =
          file_total d (file_path row) + (now w - start_time row).
Proof.
  intros Hd Hrow. rewrite endSession_eq, Hd, Hrow. cbn.
  eexists; split; [done|]. split.
  - unfold ended_database; cbn. by rewrite lookup_alter_eq, Hrow.
  - rewrite file_total_ended, decide_True by done. lia.
Qed.

(** ** The project path of an aggregate row *)

(** C4, as stated, fails: closing session 2 (project /ws) leaves the row of
    /ws/a.ts without a project. *)
Lemma endSession_project_path_not_propagated :
  let w := reopened_in_project in
  (d ← db (store w); sessions d !! 2) =
    Some {| file_path := "/ws/a.ts"; project_path := Some "/ws"; start_time := 2000;
            end_time := None; duration_ms := None |} ∧
  (d ← db (store w); file_stats d !! "/ws/a.ts") =
    Some {| fs_project_path := None; total_time_ms := 500; last_active := 1500 |} ∧
  (d ← db (store (endSession 2 w).2); file_stats d !! "/ws/a.ts") =
    Some {| fs_project_path := None; total_time_ms := 1000; last_active := 2500 |}.
Proof. vm_compute. done. Qed.

(** C4, amended.  When [endSession] closes a session whose file already has
    a [file_stats] row, the row keeps the project path it had; the session's
    project path is written only when the call creates the row. *)
Theorem endSession_project_path_first_write (w : World) (d : Database) (i : Z)
    (row : Session) :
  db (store w) = Some d -> sessions d !! i = Some row ->
  ∃ d' r', db (store (endSession i w).2) = Some d' ∧
           file_stats d' !! file_path row = Some r' ∧
           fs_project_path r' =
             match file_stats d !! file_path row with
             | Some r => fs_project_path r
             | None => project_path row
             end.
Proof.
  intros Hd Hrow. rewrite endSession_eq, Hd, Hrow. cbn.
  exists (ended_database i (now w) row d). unfold ended_database; cbn.
  destruct (file_stats d !! file_path row) as [r|] eqn:Hr.
  - exists (add_time (now w - start_time row) (now w) r).
    split; [done|]. split; [by rewrite lookup_alter_eq, Hr|done].
  - eexists. split; [done|]. split; [by rewrite lookup_insert_eq|done].
Qed.

Lemma endSession_project_path_first_write_witness :
  ∃ d' r', db (store (endSession 2 reopened_in_project).2) = Some d' ∧
           file_stats d' !! "/ws/a.ts" = Some r' ∧
           fs_project_path r' = None.
Proof.
  destruct (endSession_project_path_first_write reopened_in_project
              (default empty_database (db (store reopened_in_project))) 2
              {| file_path := "/ws/a.ts"; project_path := Some "/ws";
                 start_time := 2000; end_time := None; duration_ms := None |})
    as (d' & r' & H1 & H2 & H3).
  - vm_compute. reflexivity.
  - vm_compute. reflexivity.
  - exists d', r'. split; [exact H1|]. split; [exact H2|]. exact H3.
Defined.

(** ** Today's statistics *)

Lemma getTodayStats_eq (w : World) :
  getTodayStats w =
  match db (store w) with
  | None => (Throw "Database not initialized", w)
  | Some d =>
      let rows := started_since (localMidnight (host w) (now w)) (sessions d) in
      (Ok {| totalTime := sum_duration rows;
             fileCount := Z.of_nat (size (distinct_files rows)) |}, tick w)
  end.
Proof.
  unfold getTodayStats. unfold_m.
  destruct w as [h [[d|] sv] t]; cbn; done.
Qed.

Lemma distinct_files_split (P : Z * Session -> Prop) `{!∀ x, Decision (P x)}
    (m : gmap Z Session) (i : Z) (s : Session) :
  m !! i = Some s -> P (i, s) ->
  distinct_files (filter P m) = {[file_path s]} ∪ distinct_files (filter P (delete i m)).
Proof.
  intros Hi HP. rewrite <- (insert_delete_id m i s Hi) at 1.
  rewrite map_filter_insert, decide_True by done.
  unfold distinct_files. rewrite map_to_set_insert_L; [done|].
  rewrite map_filter_delete. apply lookup_delete_eq.
Qed.

(** C10.  A session that started today and has no [duration_ms] yet adds
    nothing to [totalTime] (the sum is that of the other rows), while its
    [file_path] is in the set that [fileCount] counts; with one such session
    alone, [getTodayStats] returns [totalTime = 0] and [fileCount = 1]. *)
Theorem getTodayStats_counts_open_session :
  (∀ (w : World) (d : Database) (i : Z) (s : Session),
     db (store w) = Some d -> sessions d !! i = Some s ->
     end_time s = None -> duration_ms s = None ->
     localMidnight (host w) (now w) <= start_time s ->
     let others := started_since (localMidnight (host w) (now w)) (delete i (sessions d)) in
     ∃ r, (getTodayStats w).1 = Ok r ∧
          totalTime r = sum_duration others ∧
          fileCount r = Z.of_nat (size ({[file_path s]} ∪ distinct_files others)) ∧
          1 <= fileCount r)
  ∧
  (∃ (w : World) (d : Database) (s : Session),
     db (store w) = Some d ∧ sessions d = {[1 := s]} ∧ end_time s = None ∧
     localMidnight (host w) (now w) <= start_time s ∧
     (getTodayStats w).1 = Ok {| totalTime := 0; fileCount := 1 |}).
Proof.
  split.
  - intros w d i s Hd Hi _ Hdur Htoday others.
    subst others. rewrite getTodayStats_eq, Hd. cbn. eexists; split; [done|]. cbn.
    unfold started_since.
    rewrite (sum_duration_filter_split _ (sessions d) i s Hi), Hdur.
    rewrite (distinct_files_split _ (sessions d) i s Hi Htoday).
    split; [by destruct (decide _)|]. split; [done|].
    match goal with |- 1 <= Z.of_nat (size ?X) => assert (size X ≠ 0%nat); [|lia] end.
    intros Hz. apply size_empty_inv in Hz. set_solver.
  - exists one_open_session.
    exists {| sessions := {[1 := {| file_path := "/ws/a.ts"; project_path := Some "/ws";
                                     start_time := 90001000; end_time := None;
                                     duration_ms := None |}]};
              file_stats := ∅; sqlite_sequence := 1 |}.
    eexists. split; [vm_compute; reflexivity|].
    split; [reflexivity|]. split; [reflexivity|].
    split; vm_compute; [discriminate | reflexivity].
Qed.

(** ** The tracker's view of the store *)

Lemma endCurrentSession_eq (w : World) :
  endCurrentSession w =
  match currentSessionId (tracker w) with
  | None => (Ok tt, w)
  | Some i =>
      match endSession i w with
      | (Ok _, w') => (Ok tt, with_tracker (session_cleared (tracker w')) w')
      | (Throw msg, w') => (Throw msg, w')
      end
  end.
Proof.
  unfold endCurrentSession, notifySessionChange. unfold_m.
  destruct (currentSessionId (tracker w)) as [i|]; [|done].
  destruct (endSession i w) as [[[]|msg] w']; done.
Qed.

Lemma checkIdle_eq (w : World) :
  checkIdle w =
  match currentSessionId (tracker w) with
  | None => (Ok tt, w)
  | Some _ =>
      if bool_decide (IDLE_TIMEOUT_MS <= now w - lastActivityTime (tracker w))
      then endCurrentSession (tick w)
      else (Ok tt, tick w)
  end.
Proof.
  unfold checkIdle. unfold_m.
  destruct (currentSessionId (tracker w)) as [i|]; [|done].
  cbn. unfold now. by destruct (bool_decide _).
Qed.

Lemma getProjectPath_eq (f : string) (w : World) :
  getProjectPath f w = (Ok (resolve_project f (workspaceFolders (host w))), w).
Proof. done. Qed.

Lemma startNewSession_eq (f : string) (w : World) :
  startNewSession f w =
  match endCurrentSession w with
  | (Throw msg, w1) => (Throw msg, w1)
  | (Ok _, w1) =>
      match startSession f (resolve_project f (workspaceFolders (host w1))) w1 with
      | (Throw msg, w2) => (Throw msg, w2)
      | (Ok i, w2) =>
          (Ok tt, with_tracker (session_started i f (now w2) (tracker w2)) (tick w2))
      end
  end.
Proof.
  unfold startNewSession, notifySessionChange.
  unfold mbind, M_bind, bind.
  destruct (endCurrentSession w) as [[[]|msg] w1]; [|done].
  rewrite getProjectPath_eq.
  destruct (startSession f _ w1) as [[i|msg] w2]; [|done].
  unfold_m. done.
Qed.

Lemma onActivity_eq (f : string) (w : World) :
  onActivity f w =
  if bool_decide (currentFilePath (tracker w) = Some f)
     && bool_decide (currentSessionId (tracker w) ≠ None)
  then (Ok tt, touch (now w) (tick w))
  else startNewSession f (touch (now w) (tick w)).
Proof.
  unfold onActivity. unfold_m. cbn.
  by destruct (bool_decide _ && bool_decide _).
Qed.

Lemma onEditorChange_eq (f : string) (w : World) :
  onEditorChange f w =
  match (if bool_decide (currentFilePath (tracker w) ≠ Some f)
         then startNewSession f w else (Ok tt, w)) with
  | (Ok _, w1) => (Ok tt, touch (now w1) (tick w1))
  | (Throw msg, w1) => (Throw msg, w1)
  end.
Proof.
  unfold onEditorChange. unfold_m. cbn.
  destruct (bool_decide _); [destruct (startNewSession f w) as [[[]|msg] w1]|]; done.
Qed.

Lemma window_blur_eq (ed : option string) (w : World) :
  onDidChangeWindowState false ed w = (Ok tt, touch (now w - IDLE_TIMEOUT_MS) (tick w)).
Proof. unfold onDidChangeWindowState. unfold_m. done. Qed.

Lemma stop_eq (w : World) :
  stop w =
  match endCurrentSession (with_tracker (set_heartbeatInterval false (tracker w)) w) with
  | (Ok _, w1) => (Ok tt, with_tracker (set_disposables 0 (tracker w1)) w1)
  | (Throw msg, w1) => (Throw msg, w1)
  end.
Proof.
  unfold stop. unfold_m.
  destruct (endCurrentSession _) as [[[]|msg] w1]; done.
Qed.

(** Projections through [tick] and [touch]. *)
Lemma store_tick (w : World) : store (tick w) = store w.
Proof. done. Qed.
Lemma store_touch (t : Z) (w : World) : store (touch t w) = store w.
Proof. done. Qed.
Lemma tracker_tick (w : World) : tracker (tick w) = tracker w.
Proof. done. Qed.
Lemma host_touch (t : Z) (w : World) : host (touch t w) = host w.
Proof. done. Qed.
Lemma now_touch (t : Z) (w : World) : now (touch t w) = now w.
Proof. done. Qed.
Lemma now_tick (w : World) : now (tick w) = clock (host w) (S (ticks (host w))).
Proof. done. Qed.
Lemma tick_touch (t : Z) (w : World) : tick (touch t w) = touch t (tick w).
Proof. done. Qed.
Lemma currentSessionId_touch (t : Z) (w : World) :
  currentSessionId (tracker (touch t w)) = currentSessionId (tracker w).
Proof. done. Qed.
Lemma currentFilePath_touch (t : Z) (w : World) :
  currentFilePath (tracker (touch t w)) = currentFilePath (tracker w).
Proof. done. Qed.

Create Rewrite HintDb world.
#[local] Hint Rewrite store_tick store_touch tracker_tick host_touch now_touch now_tick
  tick_touch currentSessionId_touch currentFilePath_touch : world.

(** ** The session state machine that the tracker drives *)

Lemma endCurrentSession_step (w : World) (d : Database) :
  db (store w) = Some d ->
  ∃ w', endCurrentSession w = (Ok tt, w') ∧
        currentSessionId (tracker w') = None ∧
        db (store w') = Some (closed_by (currentSessionId (tracker w)) (now w) d) ∧
        workspaceFolders (host w') = workspaceFolders (host w).
Proof.
  intros Hd. rewrite endCurrentSession_eq. unfold closed_by.
  destruct (currentSessionId (tracker w)) as [i|] eqn:Hc; [|eauto].
  rewrite endSession_eq, Hd.
  destruct (sessions d !! i) as [row|]; eexists; (split; [done|]); cbn; eauto.
Qed.

Lemma startNewSession_step (f : string) (w : World) (d : Database) :
  db (store w) = Some d ->
  ∃ w' t', startNewSession f w = (Ok tt, w') ∧
    let d1 := closed_by (currentSessionId (tracker w)) (now w) d in
    let p := resolve_project f (workspaceFolders (host w)) in
    currentSessionId (tracker w') = Some (next_rowid d1) ∧
    currentFilePath (tracker w') = Some f ∧
    db (store w') = Some (insert_session f p t' d1).2.
Proof.
  intros Hd. rewrite startNewSession_eq.
  destruct (endCurrentSession_step w d Hd) as (w1 & -> & Hc1 & Hd1 & Hf1).
  rewrite startSession_eq, Hd1, Hf1. cbn. eauto 10.
Qed.

Lemma onActivity_step (f : string) (w : World) (d : Database) :
  db (store w) = Some d ->
  ∃ w' d', onActivity f w = (Ok tt, w') ∧ db (store w') = Some d' ∧
           session_step (view w d) (view w' d').
Proof.
  intros Hd. rewrite onActivity_eq.
  destruct (bool_decide _ && bool_decide _).
  - eexists _, d. split; [done|]. split; [done|]. apply step_stay.
  - destruct (startNewSession_step f (touch (now w) (tick w)) d Hd)
      as (w' & t' & -> & Hc & _ & Hd').
    eexists _, _. split; [done|]. split; [exact Hd'|].
    unfold view. rewrite Hc. apply step_switch.
Qed.

Lemma onEditorChange_step (f : string) (w : World) (d : Database) :
  db (store w) = Some d ->
  ∃ w' d', onEditorChange f w = (Ok tt, w') ∧ db (store w') = Some d' ∧
           session_step (view w d) (view w' d').
Proof.
  intros Hd. rewrite onEditorChange_eq.
  destruct (bool_decide _).
  - destruct (startNewSession_step f w d Hd) as (w' & t' & -> & Hc & _ & Hd').
    eexists _, _. split; [done|]. split; [exact Hd'|].
    unfold view; cbn. rewrite Hc. apply step_switch.
  - eexists _, d. split; [done|]. split; [done|]. apply step_stay.
Qed.

Lemma checkIdle_step (w : World) (d : Database) :
  db (store w) = Some d ->
  ∃ w' d', checkIdle w = (Ok tt, w') ∧ db (store w') = Some d' ∧
           session_step (view w d) (view w' d').
Proof.
  intros Hd. rewrite checkIdle_eq.
  destruct (currentSessionId (tracker w)) as [i|] eqn:Hc.
  - destruct (bool_decide _).
    + destruct (endCurrentSession_step (tick w) d Hd) as (w' & -> & Hc' & Hd' & _).
      eexists _, _. split; [done|]. split; [exact Hd'|].
      unfold view. rewrite Hc, Hc'. cbn. rewrite Hc. apply step_close.
    + eexists _, d. split; [done|]. split; [done|].
      unfold view; cbn. rewrite Hc. apply step_stay.
  - eexists _, d. split; [done|]. split; [done|]. apply step_stay.
Qed.

Lemma stop_step (w : World) (d : Database) :
  db (store w) = Some d ->
  ∃ w' d', stop w = (Ok tt, w') ∧ db (store w') = Some d' ∧
           session_step (view w d) (view w' d').
Proof.
  intros Hd. rewrite stop_eq.
  destruct (endCurrentSession_step
              (with_tracker (set_heartbeatInterval false (tracker w)) w) d Hd)
    as (w' & -> & Hc' & Hd' & _).
  eexists _, _. split; [done|]. split; [exact Hd'|].
  unfold view; cbn. rewrite Hc'. apply step_close.
Qed.

(** Every event moves the tracker and the store along [session_step], and
    no listener throws while the database is open. *)
Lemma deliver_step (e : Event) (w : World) (d : Database) :
  db (store w) = Some d ->
  ∃ w' d', deliver e w = (Ok tt, w') ∧ db (store w') = Some d' ∧
           session_step (view w d) (view w' d').
Proof.
  intros Hd. destruct e as [f|f|[] [f|]|f| |]; unfold deliver.
  - by apply onActivity_step.
  - by apply onEditorChange_step.
  - by apply onActivity_step.
  - eexists _, d. split; [done|]. split; [done|]. apply step_stay.
  - rewrite window_blur_eq. eexists _, d. split; [done|]. split; [done|]. apply step_stay.
  - rewrite window_blur_eq. eexists _, d. split; [done|]. split; [done|]. apply step_stay.
  - by apply onActivity_step.
  - by apply checkIdle_step.
  - by apply stop_step.
Qed.

(** ** At most one open session *)

Lemma closed_by_lookup (c : option Z) (t : Z) (d : Database) (j : Z) :
  sessions (closed_by c t d) !! j =
  if decide (c = Some j)
  then close_row t (t - default 0 (start_time <$> sessions d !! j)) <$> sessions d !! j
  else sessions d !! j.
Proof.
  unfold closed_by. destruct c as [i|]; [|by rewrite decide_False].
  destruct (sessions d !! i) as [row|] eqn:Hrow; cbn.
  - rewrite lookup_alter. destruct (decide (i = j)) as [->|].
    + rewrite decide_True, Hrow by done. done.
    + rewrite decide_False by congruence. done.
  - case_decide; [|done]. simplify_eq. by rewrite Hrow.
Qed.

Lemma closed_by_single_open (base : gset Z) (c : option Z) (t : Z) (d : Database) :
  single_open base (c, d) -> single_open base (None, closed_by c t d).
Proof.
  intros (Hb & Hc & Ho). split; [|split]; cbn in *.
  - intros j Hj. apply Hb in Hj. apply elem_of_dom in Hj. apply elem_of_dom.
    rewrite closed_by_lookup. case_decide; [|done]. by apply fmap_is_Some.
  - done.
  - intros j s. rewrite closed_by_lookup. case_decide as Hcj.
    + intros Hs Hopen. apply fmap_Some in Hs as (s0 & _ & ->). done.
    + intros Hs Hopen Hj. destruct (Hcj (Ho j s Hs Hopen Hj)).
Qed.

Lemma session_step_single_open (base : gset Z) (v v' : option Z * Database) :
  session_step v v' -> single_open base v -> single_open base v'.
Proof.
  intros Hstep Hv. destruct Hstep as [c d|c d t|c d t f p t'].
  - done.
  - by apply closed_by_single_open.
  - apply (closed_by_single_open base c t d) in Hv.
    set (d1 := closed_by c t d) in *. destruct Hv as (Hb & _ & Ho); cbn in *.
    pose proof (next_rowid_fresh d1) as Hfresh.
    split; [|split]; cbn.
    + rewrite dom_insert. set_solver.
    + intros i [= <-]. split; [|by rewrite lookup_insert_eq].
      intros Hin. apply Hb, elem_of_dom in Hin. rewrite Hfresh in Hin.
      by destruct Hin.
    + intros i s. rewrite lookup_insert. case_decide; [by intros; subst|].
      intros Hs Hopen Hi. by specialize (Ho i s Hs Hopen Hi).
Qed.

Lemma run_single_open (es : list Event) (w : World) (d : Database) (base : gset Z) :
  db (store w) = Some d -> single_open base (view w d) ->
  ∃ d', db (store (run es w)) = Some d' ∧ single_open base (view (run es w) d').
Proof.
  revert w d. induction es as [|e es IH]; intros w d Hd Hv; cbn.
  - eauto.
  - destruct (deliver_step e w d Hd) as (w' & d' & He & Hd' & Hstep).
    rewrite He. cbn. apply (IH w' d' Hd').
    by apply (session_step_single_open base (view w d)).
Qed.

Lemma session_step_closes_previous (base : gset Z) (v v' : option Z * Database)
    (i j : Z) :
  session_step v v' -> single_open base v ->
  v.1 = Some i -> v'.1 = Some j -> j ≠ i ->
  ∃ s t, sessions v'.2 !! i = Some s ∧ end_time s = Some t.
Proof.
  intros Hstep (_ & Hc & _) Hi Hj Hji.
  destruct (Hc i Hi) as [_ [row Hrow]].
  destruct Hstep as [c d|c d t|c d t f p t']; cbn [fst snd] in *.
  - congruence.
  - done.
  - injection Hj as Hj. subst c.
    unfold insert_session. cbn [snd sessions].
    rewrite lookup_insert_ne by congruence.
    rewrite closed_by_lookup, decide_True, Hrow by done. cbn. eauto.
Qed.

(** C3.  Start a tracker on an open database holding the rows [d0].  After
    any sequence of events, every session that the tracker created (its id
    is not a row of [d0]) and that is still open in the store is the
    tracker's current session, so there is at most one; and whenever the
    next event gives the tracker a different session, the session it had
    before is closed in the store by then. *)
Theorem tracker_single_open_session (es : list Event) (w0 : World) (d0 : Database) :
  db (store w0) = Some d0 -> currentSessionId (tracker w0) = None ->
  let w := run es w0 in
  ∃ d, db (store w) = Some d ∧
    (∀ i s, sessions d !! i = Some s -> end_time s = None ->
            i ∉ dom (sessions d0) -> currentSessionId (tracker w) = Some i) ∧
    (∀ i j s s', sessions d !! i = Some s -> end_time s = None -> i ∉ dom (sessions d0) ->
                 sessions d !! j = Some s' -> end_time s' = None -> j ∉ dom (sessions d0) ->
                 i = j) ∧
    (∀ e i j, currentSessionId (tracker w) = Some i ->
              currentSessionId (tracker (deliver e w).2) = Some j -> j ≠ i ->
              ∃ d' s t, db (store (deliver e w).2) = Some d' ∧
                        sessions d' !! i = Some s ∧ end_time s = Some t).
Proof.
  intros Hd0 Hc0 w.
  assert (Hinit : single_open (dom (sessions d0)) (view w0 d0)).
  { unfold view. rewrite Hc0. split; [done|]. split; [done|].
    intros i s Hs _ Hi. cbn in *. destruct Hi. apply elem_of_dom. eauto. }
  destruct (run_single_open es w0 d0 _ Hd0 Hinit) as (d & Hd & Hinv).
  fold w in Hd, Hinv. exists d. split; [done|].
  pose proof Hinv as (_ & _ & Ho). cbn in Ho.
  split; [exact Ho|]. split.
  - intros i j s s' Hs Hopen Hi Hs' Hopen' Hj.
    pose proof (Ho i s Hs Hopen Hi) as H1. pose proof (Ho j s' Hs' Hopen' Hj) as H2.
    congruence.
  - intros e i j Hi Hj Hji.
    destruct (deliver_step e w d Hd) as (w' & d' & He & Hd' & Hstep).
    rewrite He in Hj |- *. cbn in Hj |- *.
    destruct (session_step_closes_previous _ _ _ i j Hstep Hinv Hi Hj Hji)
      as (s & t & Hs & Ht).
    eauto 10.
Qed.

Lemma tracker_single_open_session_witness :
  ∃ d, db (store (run [TextChange "/ws/a.ts"; Selection "/ws/b.ts"; Heartbeat]
                      closed_once)) = Some d ∧
       (∀ i s, sessions d !! i = Some s -> end_time s = None ->
               i ∉ dom (sessions (default empty_database (db (store closed_once)))) ->
               currentSessionId
                 (tracker (run [TextChange "/ws/a.ts"; Selection "/ws/b.ts"; Heartbeat]
                             closed_once)) = Some i).
Proof.
  destruct (tracker_single_open_session
              [TextChange "/ws/a.ts"; Selection "/ws/b.ts"; Heartbeat] closed_once
              (default empty_database (db (store closed_once))))
    as (d & Hd & Ho & _).
  - vm_compute. reflexivity.
  - vm_compute. reflexivity.
  - exists d. split; [exact Hd | exact Ho].
Defined.

(** ** A failing store under the heartbeat *)

(** C5, as stated, fails: [endSession] throws, [checkIdle] throws with it,
    and the tracker still holds its session. *)
Lemma checkIdle_store_failure_propagates :
  let w := store_closed_while_tracking in
  isTracking w = true ∧
  bool_decide (IDLE_TIMEOUT_MS <= now w - lastActivityTime (tracker w)) = true ∧
  (checkIdle w).1 = Throw "Database not initialized" ∧
  isTracking (checkIdle w).2 = true ∧
  currentSessionId (tracker (checkIdle w).2) = Some 1 ∧
  getCurrentFilePath (checkIdle w).2 = Some "/ws/a.ts".
Proof. vm_compute. done. Qed.

(** C5, amended.  While [checkIdle] closes an idle session, a [throw] of
    the store's [endSession] leaves [checkIdle] as it is (the tracker has no
    handler) and [currentSessionId] and [currentFilePath] keep their values,
    so [isTracking] stays true; they are cleared, and [isTracking] becomes
    false, when [endSession] returns. *)
Theorem checkIdle_store_failure (w : World) (i : Z) :
  currentSessionId (tracker w) = Some i ->
  IDLE_TIMEOUT_MS <= now w - lastActivityTime (tracker w) ->
  let w' := (checkIdle w).2 in
  match (endSession i (tick w)).1 with
  | Throw msg =>
      (checkIdle w).1 = Throw msg ∧
      currentSessionId (tracker w') = Some i ∧
      currentFilePath (tracker w') = currentFilePath (tracker w) ∧
      isTracking w' = true
  | Ok _ =>
      (checkIdle w).1 = Ok tt ∧
      currentSessionId (tracker w') = None ∧
      currentFilePath (tracker w') = None ∧
      isTracking w' = false
  end.
Proof.
  intros Hc Hidle w'. subst w'. rewrite checkIdle_eq, Hc.
  rewrite bool_decide_eq_true_2 by done.
  rewrite endCurrentSession_eq. cbn [tick with_host tracker]. rewrite Hc.
  pose proof (endSession_tracker i (tick w)) as Ht.
  destruct (endSession i (tick w)) as [[[]|msg] w1]; cbn in *.
  - done.
  - rewrite Ht. unfold isTracking. rewrite Ht, Hc. done.
Qed.

Lemma checkIdle_store_failure_witness :
  (checkIdle store_closed_while_tracking).1 = Throw "Database not initialized" ∧
  isTracking (checkIdle store_closed_while_tracking).2 = true.
Proof.
  pose proof (checkIdle_store_failure store_closed_while_tracking 1) as H.
  cbv zeta in H. specialize (H eq_refl).
  assert (Hidle : IDLE_TIMEOUT_MS <=
                  now store_closed_while_tracking
                  - lastActivityTime (tracker store_closed_while_tracking)).
  { vm_compute. discriminate. }
  specialize (H Hidle).
  change ((endSession 1 (tick store_closed_while_tracking)).1)
    with (@Throw unit "Database not initialized") in H.
  destruct H as (H1 & _ & _ & H2). split; [exact H1 | exact H2].
Defined.

(** ** Switching files *)



(** ** Repeated activity on the tracked file *)

(** C7.  With a session open for [f], [onActivity f] returns after writing
    [lastActivityTime]: the store object (both tables, the row of the
    session and its [start_time] included) and the other tracker fields are
    what they were. *)
Theorem onActivity_same_file (w : World) (f : string) (i : Z) :
  currentFilePath (tracker w) = Some f ->
  currentSessionId (tracker w) = Some i ->
  let w' := (onActivity f w).2 in
  (onActivity f w).1 = Ok tt ∧
  store w' = store w ∧
  disk (host w') = disk (host w) ∧
  tracker w' = set_lastActivityTime (now w) (tracker w) ∧
  currentSessionId (tracker w') = Some i ∧
  (∀ d row, db (store w) = Some d -> sessions d !! i = Some row ->
            db (store w') = Some d ∧
            (start_time <$> (d' ← db (store w'); sessions d' !! i)) = Some (start_time row)).
Proof.
  intros Hf Hc w'. subst w'. rewrite onActivity_eq, Hf, Hc.
  rewrite bool_decide_eq_true_2 by done.
  rewrite bool_decide_eq_true_2 by done. cbn.
  do 5 (split; [done|]).
  intros d row Hd Hrow. rewrite Hd. cbn. by rewrite Hrow.
Qed.

Lemma onActivity_same_file_witness :
  store (onActivity "/ws/a.ts" tracking_a).2 = store tracking_a ∧
  currentSessionId (tracker (onActivity "/ws/a.ts" tracking_a).2) = Some 1.
Proof.
  destruct (onActivity_same_file tracking_a "/ws/a.ts" 1) as (_ & H1 & _ & _ & H2 & _).
  - vm_compute. reflexivity.
  - vm_compute. reflexivity.
  - split; [exact H1 | exact H2].
Defined.

(** ** The idle check *)

Lemma next_rowid_closed_by_ne (c : option Z) (t : Z) (d : Database) (i : Z) :
  is_Some (sessions d !! i) -> next_rowid (closed_by c t d) ≠ i.
Proof.
  intros Hi Heq. pose proof (next_rowid_fresh (closed_by c t d)) as Hfresh.
  rewrite Heq, closed_by_lookup in Hfresh.
  destruct Hi as [s Hs]. rewrite Hs in Hfresh. by case_decide.
Qed.

Lemma startNewSession_changes_id (f : string) (w : World) (d : Database) (i : Z) :
  db (store w) = Some d -> is_Some (sessions d !! i) ->
  currentSessionId (tracker (startNewSession f w).2) ≠ Some i.
Proof.
  intros Hd Hi. destruct (startNewSession_step f w d Hd) as (w' & t' & -> & Hc & _).
  cbn. rewrite Hc. intros [= Heq]. by apply next_rowid_closed_by_ne in Heq.
Qed.

Lemma deliver_ends_session (e : Event) (w : World) (d : Database) (i : Z) :
  e ≠ Heartbeat -> db (store w) = Some d ->
  currentSessionId (tracker w) = Some i -> is_Some (sessions d !! i) ->
  currentSessionId (tracker (deliver e w).2) ≠ Some i ↔
  event_ends_session e (tracker w) = true.
Proof.
  intros He Hd Hc Hi.
  assert (Hact : ∀ f, currentSessionId (tracker (onActivity f w).2) ≠ Some i ↔
                      bool_decide (currentFilePath (tracker w) ≠ Some f) = true).
  { intros f. rewrite onActivity_eq, Hc.
    rewrite (bool_decide_eq_true_2 (Some i ≠ None)) by done.
    rewrite andb_true_r. destruct (decide (currentFilePath (tracker w) = Some f)) as [Hf|Hf].
    - rewrite bool_decide_eq_true_2 by done.
      rewrite bool_decide_eq_false_2 by (by intros ?).
      cbn. rewrite Hc. split; [by intros [] | done].
    - rewrite bool_decide_eq_false_2 by done.
      rewrite bool_decide_eq_true_2 by done.
      split; [done|]. intros _. by apply (startNewSession_changes_id f _ d). }
  destruct e as [f|f|[] [f|]|f| |]; unfold deliver, event_ends_session.
  - apply Hact.
  - rewrite onEditorChange_eq.
    destruct (decide (currentFilePath (tracker w) = Some f)) as [Hf|Hf].
    + rewrite !bool_decide_eq_false_2 by (by intros ?).
      cbn. rewrite Hc. split; [by intros [] | done].
    + rewrite !bool_decide_eq_true_2 by done.
      split; [done|]. intros _.
      pose proof (startNewSession_changes_id f w d i Hd Hi) as Hn.
      destruct (startNewSession f w) as [[[]|msg] w1]; exact Hn.
  - apply Hact.
  - cbn. rewrite Hc. split; [by intros [] | done].
  - rewrite window_blur_eq. cbn. rewrite Hc. split; [by intros [] | done].
  - rewrite window_blur_eq. cbn. rewrite Hc. split; [by intros [] | done].
  - apply Hact.
  - done.
  - split; [done|]. intros _. rewrite stop_eq.
    destruct (endCurrentSession_step
                (with_tracker (set_heartbeatInterval false (tracker w)) w) d Hd)
      as (w1 & -> & Hc1 & _).
    cbn. rewrite Hc1. done.
Qed.

Lemma checkIdle_idle (w : World) (d : Database) (i : Z) (row : Session) :
  db (store w) = Some d -> currentSessionId (tracker w) = Some i ->
  sessions d !! i = Some row ->
  IDLE_TIMEOUT_MS <= now w - lastActivityTime (tracker w) ->
  checkIdle w =
  (Ok tt,
   with_tracker (session_cleared (tracker w))
     (with_store {| db := Some (ended_database i (now (tick w)) row d);
                    saveTimeout := true |} (tick (tick w)))).
Proof.
  intros Hd Hc Hrow Hidle. rewrite checkIdle_eq, Hc.
  rewrite bool_decide_eq_true_2 by done.
  rewrite endCurrentSession_eq. autorewrite with world. rewrite Hc.
  rewrite endSession_eq. autorewrite with world. rewrite Hd, Hrow. done.
Qed.

Lemma checkIdle_not_idle (w : World) :
  currentSessionId (tracker w) = None ∨
  now w - lastActivityTime (tracker w) < IDLE_TIMEOUT_MS ->
  (checkIdle w).1 = Ok tt ∧
  tracker (checkIdle w).2 = tracker w ∧ store (checkIdle w).2 = store w.
Proof.
  intros H. rewrite checkIdle_eq.
  destruct (currentSessionId (tracker w)) as [i|]; [|done].
  destruct H as [|H]; [done|].
  rewrite bool_decide_eq_false_2 by lia. done.
Qed.

(** C8.  On an open database, [checkIdle] closes the tracker's session
    exactly when there is one and the clock reading of the check is at least
    [IDLE_TIMEOUT_MS] (2 minutes) after [lastActivityTime]; otherwise the
    tracker and the store stay as they were.  Of the other events, only
    activity on another file and [stop] take the session away, and none of
    them looks at the clock to decide. *)
Theorem checkIdle_closes_iff_idle (w : World) (d : Database) :
  db (store w) = Some d ->
  let w' := (checkIdle w).2 in
  let idle := IDLE_TIMEOUT_MS <= now w - lastActivityTime (tracker w) in
  IDLE_TIMEOUT_MS = 120000 ∧
  (checkIdle w).1 = Ok tt ∧
  (isTracking w = true ∧ isTracking w' = false ↔ isTracking w = true ∧ idle) ∧
  (∀ i row, currentSessionId (tracker w) = Some i ->
            sessions d !! i = Some row -> end_time row = None ->
            (session_closed_in i w' ↔ idle) ∧
            (idle ->
             ∃ d', db (store w') = Some d' ∧
                   sessions d' !! i =
                     Some (close_row (now (tick w)) (now (tick w) - start_time row) row))) ∧
  (¬ (isTracking w = true ∧ idle) -> tracker w' = tracker w ∧ store w' = store w) ∧
  (∀ e i, e ≠ Heartbeat -> currentSessionId (tracker w) = Some i ->
          is_Some (sessions d !! i) ->
          currentSessionId (tracker (deliver e w).2) ≠ Some i ↔
          event_ends_session e (tracker w) = true).
Proof.
  intros Hd w' idle. subst w' idle.
  split; [done|].
  split; [by destruct (checkIdle_step w d Hd) as (w' & d' & -> & _)|].
  assert (Hkeep : ¬ (isTracking w = true ∧
                     IDLE_TIMEOUT_MS <= now w - lastActivityTime (tracker w)) ->
                  tracker (checkIdle w).2 = tracker w ∧ store (checkIdle w).2 = store w).
  { intros Hn. apply checkIdle_not_idle. unfold isTracking in Hn.
    destruct (currentSessionId (tracker w)); [|by left].
    right. rewrite bool_decide_eq_true_2 in Hn by done.
    destruct (decide (IDLE_TIMEOUT_MS <= now w - lastActivityTime (tracker w)));
      [tauto | lia]. }
  split; [|split; [|split; [exact Hkeep|]]].
  - split.
    + intros [Ht Hf]. split; [done|].
      destruct (decide (IDLE_TIMEOUT_MS <= now w - lastActivityTime (tracker w)))
        as [|Hn]; [done|].
      destruct Hkeep as [Hk _]; [tauto|].
      unfold isTracking in *. rewrite Hk in Hf. congruence.
    + intros [Ht Hidle]. split; [done|]. unfold isTracking in *.
      destruct (currentSessionId (tracker w)) as [i|] eqn:Hc.
      2:{ rewrite bool_decide_eq_false_2 in Ht by (by intros []). done. }
      rewrite checkIdle_eq, Hc.
      rewrite (bool_decide_eq_true_2 (IDLE_TIMEOUT_MS <= _)) by done.
      destruct (endCurrentSession_step (tick w) d Hd) as (w1 & -> & Hc1 & _).
      cbn. rewrite Hc1. apply bool_decide_eq_false_2. by intros [].
  - intros i row Hc Hrow Hopen.
    assert (Hcl : IDLE_TIMEOUT_MS <= now w - lastActivityTime (tracker w) ->
                  ∃ d', db (store (checkIdle w).2) = Some d' ∧
                        sessions d' !! i =
                          Some (close_row (now (tick w))
                                  (now (tick w) - start_time row) row)).
    { intros Hidle. rewrite (checkIdle_idle w d i row) by done.
      eexists. split; [done|]. unfold ended_database; cbn.
      by rewrite lookup_alter_eq, Hrow. }
    split; [|exact Hcl]. split.
    + intros (d' & s & t & Hd' & Hs & Ht).
      destruct (decide (IDLE_TIMEOUT_MS <= now w - lastActivityTime (tracker w)))
        as [|Hn]; [done|].
      destruct Hkeep as [_ Hk]; [tauto|].
      rewrite Hk, Hd in Hd'. simplify_eq.
    + intros Hidle. destruct (Hcl Hidle) as (d' & Hd' & Hs).
      eexists d', _, (now (tick w)). split; [done|]. split; [exact Hs|done].
  - intros e i He Hc Hi. by apply (deliver_ends_session e w d i).
Qed.

Lemma checkIdle_closes_iff_idle_witness :
  (isTracking tracking_a = true ∧ isTracking (checkIdle tracking_a).2 = false ↔
   isTracking tracking_a = true ∧
   IDLE_TIMEOUT_MS <= now tracking_a - lastActivityTime (tracker tracking_a)).
Proof.
  destruct (checkIdle_closes_iff_idle tracking_a
              (default empty_database (db (store tracking_a))))
    as (_ & _ & H & _).
  - vm_compute. reflexivity.
  - exact H.
Defined.

(** ** Losing the window focus *)



(** ** The aggregate law under the tracker *)

Lemma closed_by_consistent (c : option Z) (t : Z) (d : Database) :
  tracking_consistent (c, d) -> aggregates_consistent (closed_by c t d).
Proof.
  intros [Hagg Hc]. cbn in *. unfold closed_by.
  destruct c as [i|]; [|done].
  destruct (Hc i eq_refl) as (row & Hrow & Hopen).
  rewrite Hrow. by apply ended_database_consistent.
Qed.

Lemma session_step_consistent (v v' : option Z * Database) :
  session_step v v' -> tracking_consistent v -> tracking_consistent v'.
Proof.
  intros Hstep Hv. destruct Hstep as [c d|c d t|c d t f p t'].
  - done.
  - split; cbn [fst snd]; [by apply closed_by_consistent | done].
  - split; cbn [fst snd].
    + apply insert_session_consistent. by apply closed_by_consistent.
    + intros i [= <-]. unfold insert_session; cbn [snd sessions].
      rewrite lookup_insert_eq. eauto.
Qed.

(** Whatever the events, the tracker never double-counts: it ends only the
    session it holds, which is open. *)
Lemma run_aggregates_consistent (es : list Event) (w : World) (d : Database) :
  db (store w) = Some d -> tracking_consistent (view w d) ->
  ∃ d', db (store (run es w)) = Some d' ∧ aggregates_consistent d'.
Proof.
  revert w d. induction es as [|e es IH]; intros w d Hd Hv; cbn.
  - exists d. split; [done | apply Hv].
  - destruct (deliver_step e w d Hd) as (w' & d' & He & Hd' & Hstep).
    rewrite He. cbn. apply (IH w' d' Hd').
    by apply (session_step_consistent (view w d)).
Qed.

Lemma endSession_adds_duration_once_witness :
  (∃ d' r', db (store (endSession 2 reopened_in_project).2) = Some d' ∧
            file_stats d' !! "/ws/a.ts" = Some r' ∧
            total_time_ms r' = 500 + (2500 - 2000) ∧ last_active r' = 2500) ∧
  (∃ d', db (store (calls [CallStart "/ws/a.ts" None; CallEnd 1;
                           CallStart "/ws/b.ts" (Some "/ws"); CallEnd 2; CallEnd 7]
                      (fresh_world (linear_clock 1000 500) (Some ["/ws"])))) = Some d' ∧
         ∀ f, file_total d' f = closed_time f (sessions d')).
Proof.
  destruct endSession_adds_duration_once as [Hstep Hseq]. split.
  - destruct (Hstep reopened_in_project
                (default empty_database (db (store reopened_in_project))) 2
                {| file_path := "/ws/a.ts"; project_path := Some "/ws";
                   start_time := 2000; end_time := None; duration_ms := None |})
      as (d' & r' & H1 & _ & H2 & H3 & H4 & _).
    + vm_compute. reflexivity.
    + vm_compute. reflexivity.
    + reflexivity.
    + exists d', r'. rewrite H1. split; [reflexivity|]. split; [exact H2|].
      split; [exact H3 | exact H4].
  - apply (Hseq _ _ empty_database).
    + reflexivity.
    + exact empty_database_consistent.
    + vm_compute. reflexivity.
Defined.

Lemma getTodayStats_counts_open_session_witness :
  ∃ r, (getTodayStats one_open_session).1 = Ok r ∧ totalTime r = 0 ∧ 1 <= fileCount r.
Proof.
  destruct getTodayStats_counts_open_session as [Hopen _].
  destruct (Hopen one_open_session
              (default empty_database (db (store one_open_session))) 1
              {| file_path := "/ws/a.ts"; project_path := Some "/ws";
                 start_time := 90001000; end_time := None; duration_ms := None |})
    as (r & H1 & H2 & _ & H3).
  - vm_compute. reflexivity.
  - vm_compute. reflexivity.
  - reflexivity.
  - reflexivity.
  - vm_compute. discriminate.
  - exists r. split; [exact H1|]. split; [|exact H3].
    rewrite H2. vm_compute. reflexivity.
Defined.

(** * Further properties of the store *)

(** ** startSession *)

(** X1.  On an open database [startSession] returns an id that no row had,
    larger than the id of every row; the row it inserts under that id is
    open, carries the given file and project and the clock reading as
    [start_time]; every other row and the whole of [file_stats] are as
    before, and a save is scheduled. *)
Theorem startSession_fresh_row (w : World) (d : Database) (f : string)
    (p : option string) :
  db (store w) = Some d ->
  ∃ i d',
    startSession f p w =
      (Ok i, with_store {| db := Some d'; saveTimeout := true |} (tick w)) ∧
    sessions d !! i = None ∧
    (∀ j s, sessions d !! j = Some s -> j < i) ∧
    sqlite_sequence d < i ∧
    sessions d' !! i =
      Some {| file_path := f; project_path := p; start_time := now w;
              end_time := None; duration_ms := None |} ∧
    (∀ j, j ≠ i -> sessions d' !! j = sessions d !! j) ∧
    file_stats d' = file_stats d.
Proof.
  intros Hd. exists (next_rowid d), (insert_session f p (now w) d).2.
  split; [by rewrite startSession_eq, Hd|].
  split; [apply next_rowid_fresh|].
  split.
  { intros j s Hj. apply max_rowid_ge in Hj. unfold next_rowid. lia. }
  split; [unfold next_rowid; lia|].
  unfold insert_session; cbn [snd sessions file_stats].
  split; [by rewrite lookup_insert_eq|].
  split; [|done]. intros j Hj. by rewrite lookup_insert_ne.
Qed.

Lemma startSession_fresh_row_witness :
  ∃ i d', (startSession "/ws/b.ts" None closed_once).1 = Ok i ∧
          db (store (startSession "/ws/b.ts" None closed_once).2) = Some d' ∧
          (end_time <$> sessions d' !! i) = Some None ∧ 1 < i.
Proof.
  destruct (startSession_fresh_row closed_once
              (default empty_database (db (store closed_once))) "/ws/b.ts" None)
    as (i & d' & H1 & _ & H2 & _ & H3 & _).
  - vm_compute. reflexivity.
  - exists i, d'. rewrite H1. split; [reflexivity|]. split; [reflexivity|].
    split; [rewrite H3; reflexivity|].
    apply (H2 1 {| file_path := "/ws/a.ts"; project_path := Some "/ws";
                   start_time := 1000; end_time := Some 1500;
                   duration_ms := Some 500 |}).
    vm_compute. reflexivity.
Defined.

(** ** A store without a database *)

Lemma getFileStats_eq (f : string) (w : World) :
  getFileStats f w =
  match db (store w) with
  | None => (Throw "Database not initialized", w)
  | Some d => (Ok (file_stats d !! f), w)
  end.
Proof. unfold getFileStats. unfold_m. by destruct (db (store w)). Qed.

Lemma getOngoingSessions_eq (w : World) :
  getOngoingSessions w =
  match db (store w) with
  | None => (Throw "Database not initialized", w)
  | Some d => (Ok (ongoing (sessions d)), w)
  end.
Proof. unfold getOngoingSessions. unfold_m. by destruct (db (store w)). Qed.

(** X2.  Before [initialize] and after [close] the database handle is null.
    Then [startSession], [endSession], [getFileStats], [getOngoingSessions]
    and [getTodayStats] throw 'Database not initialized' and leave every
    field as it was (no clock read, no save scheduled), while
    [updateFileStats] and [saveToDisk] return without doing anything. *)
Theorem store_without_database (w : World) (f : string) (p : option string)
    (i dur t : Z) :
  db (store w) = None ->
  startSession f p w = (Throw "Database not initialized", w) ∧
  endSession i w = (Throw "Database not initialized", w) ∧
  getFileStats f w = (Throw "Database not initialized", w) ∧
  getOngoingSessions w = (Throw "Database not initialized", w) ∧
  getTodayStats w = (Throw "Database not initialized", w) ∧
  updateFileStats f p dur t w = (Ok tt, w) ∧
  saveToDisk w = (Ok tt, w).
Proof.
  intros Hd.
  rewrite startSession_eq, endSession_eq, getFileStats_eq, getOngoingSessions_eq,
    getTodayStats_eq, Hd.
  do 5 (split; [done|]).
  unfold updateFileStats, saveToDisk. unfold_m. by rewrite Hd.
Qed.

Lemma store_without_database_witness :
  startSession "/ws/a.ts" None store_closed_while_tracking =
    (Throw "Database not initialized", store_closed_while_tracking).
Proof.
  apply (store_without_database store_closed_while_tracking "/ws/a.ts" None 0 0 0).
  vm_compute. reflexivity.
Defined.

(** ** What a sequence of store calls keeps *)

Lemma call_db (c : StoreCall) (w : World) (d : Database) :
  db (store w) = Some d ->
  db (store (call c w).2) =
  Some match c with
       | CallStart f p => (insert_session f p (now w) d).2
       | CallEnd i =>
           match sessions d !! i with
           | Some row => ended_database i (now w) row d
           | None => d
           end
       end.
Proof.
  intros Hd. destruct c as [f p|i]; cbn.
  - unfold mbind, M_bind, bind. by rewrite startSession_eq, Hd.
  - rewrite endSession_eq, Hd. by destruct (sessions d !! i).
Qed.

Lemma call_keeps_row (c : StoreCall) (w : World) (d : Database) (i : Z) (s : Session) :
  db (store w) = Some d -> sessions d !! i = Some s ->
  ∃ d' s', db (store (call c w).2) = Some d' ∧ sessions d' !! i = Some s' ∧
           file_path s' = file_path s ∧ project_path s' = project_path s ∧
           start_time s' = start_time s ∧
           (is_Some (end_time s) -> is_Some (end_time s')).
Proof.
  intros Hd Hs. rewrite (call_db c w d Hd). destruct c as [f p|j].
  - eexists _, s. split; [done|]. unfold insert_session; cbn [snd sessions].
    rewrite lookup_insert_ne.
    2:{ intros Heq. pose proof (next_rowid_fresh d) as Hn. congruence. }
    done.
  - destruct (sessions d !! j) as [row|] eqn:Hrow; [|by eexists _, s].
    unfold ended_database; cbn. destruct (decide (j = i)) as [->|Hne].
    + eexists _, (close_row _ _ s). split; [done|]. cbn [sessions].
      rewrite lookup_alter_eq, Hs. cbn. eauto 10.
    + eexists _, s. split; [done|]. cbn [sessions]. by rewrite lookup_alter_ne.
Qed.

(** X3.  No sequence of [startSession] and [endSession] calls deletes a
    session row or changes its [file_path], [project_path] or [start_time],
    and a row that is closed stays closed. *)
Theorem calls_keep_rows (cs : list StoreCall) (w : World) (d : Database) (i : Z)
    (s : Session) :
  db (store w) = Some d -> sessions d !! i = Some s ->
  ∃ d' s', db (store (calls cs w)) = Some d' ∧ sessions d' !! i = Some s' ∧
           file_path s' = file_path s ∧ project_path s' = project_path s ∧
           start_time s' = start_time s ∧
           (is_Some (end_time s) -> is_Some (end_time s')).
Proof.
  revert w d s. induction cs as [|c cs IH]; intros w d s Hd Hs; cbn.
  - by eexists d, s.
  - destruct (call_keeps_row c w d i s Hd Hs) as (d1 & s1 & Hd1 & Hs1 & Hf & Hp & Ht & He).
    destruct (IH _ d1 s1 Hd1 Hs1) as (d' & s' & Hd' & Hs' & Hf' & Hp' & Ht' & He').
    exists d', s'. split; [done|]. split; [done|].
    split; [congruence|]. split; [congruence|]. split; [congruence|]. auto.
Qed.

Lemma calls_keep_rows_witness :
  ∃ d' s', db (store (calls [CallEnd 1; CallStart "/ws/b.ts" None; CallEnd 5] closed_once))
             = Some d' ∧
           sessions d' !! 1 = Some s' ∧ file_path s' = "/ws/a.ts" ∧ start_time s' = 1000.
Proof.
  destruct (calls_keep_rows [CallEnd 1; CallStart "/ws/b.ts" None; CallEnd 5] closed_once
              (default empty_database (db (store closed_once))) 1
              {| file_path := "/ws/a.ts"; project_path := Some "/ws";
                 start_time := 1000; end_time := Some 1500; duration_ms := Some 500 |})
    as (d' & s' & H1 & H2 & H3 & _ & H4 & _).
  - vm_compute. reflexivity.
  - vm_compute. reflexivity.
  - exists d', s'. split; [exact H1|]. split; [exact H2|]. split; [exact H3 | exact H4].
Defined.

(** ** Aggregate rows are created by the first close *)

Lemma call_rows_iff_closed (c : StoreCall) (w : World) (d : Database) :
  db (store w) = Some d -> rows_iff_closed d ->
  ∃ d', db (store (call c w).2) = Some d' ∧ rows_iff_closed d'.
Proof.
  intros Hd Hinv. rewrite (call_db c w d Hd). eexists; split; [done|].
  destruct c as [f p|i].
  - intros g. unfold insert_session; cbn [snd sessions file_stats].
    rewrite (Hinv g). pose proof (next_rowid_fresh d) as Hfresh. split.
    + intros (j & s & Hj & Hg & Hc). exists j, s.
      rewrite lookup_insert_ne by congruence. done.
    + intros (j & s & Hj & Hg & Hc). rewrite lookup_insert in Hj.
      case_decide; simplify_eq; [by destruct Hc|]. eauto.
  - destruct (sessions d !! i) as [row|] eqn:Hrow; [|done].
    intros g. unfold ended_database; cbn [sessions file_stats].
    assert (Hfs : is_Some ((match file_stats d !! file_path row with
                            | Some _ => alter (add_time (now w - start_time row) (now w))
                                          (file_path row) (file_stats d)
                            | None => <[file_path row :=
                                         {| fs_project_path := project_path row;
                                            total_time_ms := now w - start_time row;
                                            last_active := now w |}]> (file_stats d)
                            end) !! g) ↔
                   g = file_path row ∨ is_Some (file_stats d !! g)).
    { destruct (file_stats d !! file_path row) as [r|] eqn:Hr.
      - rewrite lookup_alter_is_Some. split; [auto|].
        intros [->|]; [by rewrite Hr|done].
      - rewrite lookup_insert. case_decide; subst; split; eauto.
        intros [?|?]; [congruence|done]. }
    rewrite Hfs, (Hinv g). split.
    + intros [->|(j & s & Hj & Hg & Hc)].
      * exists i, (close_row (now w) (now w - start_time row) row).
        rewrite lookup_alter_eq, Hrow. cbn. eauto.
      * destruct (decide (i = j)) as [->|Hne].
        -- exists j, (close_row (now w) (now w - start_time row) s).
           rewrite lookup_alter_eq, Hj. cbn. eauto.
        -- exists j, s. by rewrite lookup_alter_ne.
    + intros (j & s & Hj & Hg & Hc). rewrite lookup_alter in Hj.
      case_decide as Hij.
      * subst j. rewrite Hrow in Hj. cbn in Hj. simplify_eq. by left.
      * right. eauto.
Qed.

(** X4.  A [file_stats] row is created by the first [endSession] for its
    file and by nothing else: if the rows are exactly those of the files
    with a closed session (as in an empty database), they still are after
    any sequence of [startSession] and [endSession] calls.  So
    [getFileStats] answers [undefined] exactly for the files that have no
    closed session. *)
Theorem calls_rows_iff_closed (cs : list StoreCall) (w : World) (d : Database) :
  db (store w) = Some d -> rows_iff_closed d ->
  ∃ d', db (store (calls cs w)) = Some d' ∧ rows_iff_closed d' ∧
        ∀ f, (getFileStats f (calls cs w)).1 = Ok None ↔
             ¬ ∃ i s, sessions d' !! i = Some s ∧ file_path s = f ∧ is_Some (end_time s).
Proof.
  revert w d. induction cs as [|c cs IH]; intros w d Hd Hinv; cbn.
  - exists d. split; [done|]. split; [done|]. intros f.
    rewrite getFileStats_eq, Hd. cbn. rewrite <- (Hinv f).
    destruct (file_stats d !! f) as [r|]; split.
    + intros [=].
    + intros Hn. destruct Hn. eauto.
    + intros _ [? [=]].
    + done.
  - destruct (call_rows_iff_closed c w d Hd Hinv) as (d1 & Hd1 & Hinv1).
    by apply (IH _ d1).
Qed.

Lemma calls_rows_iff_closed_witness :
  ∃ d', db (store (calls [CallStart "/ws/a.ts" None; CallStart "/ws/b.ts" None; CallEnd 2]
                     (fresh_world (linear_clock 0 10) None))) = Some d' ∧
        rows_iff_closed d'.
Proof.
  destruct (calls_rows_iff_closed
              [CallStart "/ws/a.ts" None; CallStart "/ws/b.ts" None; CallEnd 2]
              (fresh_world (linear_clock 0 10) None) empty_database)
    as (d' & H1 & H2 & _).
  - reflexivity.
  - intros f. split.
    + intros [r Hr]. vm_compute in Hr. discriminate.
    + intros (i & s & Hs & _). vm_compute in Hs. discriminate.
  - exists d'. split; [exact H1 | exact H2].
Defined.

(** ** Durations under a clock that does not go back *)

Lemma call_host (c : StoreCall) (w : World) :
  clock (host (call c w).2) = clock (host w) ∧
  (ticks (host w) <= ticks (host (call c w).2))%nat.
Proof.
  destruct c as [f p|i]; cbn.
  - unfold mbind, M_bind, bind. rewrite startSession_eq.
    destruct (db (store w)); cbn; split; (done || lia).
  - rewrite endSession_eq. destruct (db (store w)) as [d|]; [|by split].
    destruct (sessions d !! i); cbn; split; (done || lia).
Qed.

Lemma call_clock_monotone (c : StoreCall) (w : World) :
  clock_monotone w -> clock_monotone (call c w).2 ∧ now w <= now (call c w).2.
Proof.
  intros Hm. destruct (call_host c w) as [Hc Ht]. split.
  - intros n m Hn Hnm. rewrite Hc. apply Hm; lia.
  - unfold now. rewrite Hc. apply Hm; lia.
Qed.

Lemma call_totals (c : StoreCall) (w : World) (d : Database) :
  db (store w) = Some d -> clock_monotone w -> started_in_past w d ->
  ∃ d', db (store (call c w).2) = Some d' ∧
        started_in_past (call c w).2 d' ∧
        (∀ f, file_total d f <= file_total d' f) ∧
        (∀ i s' dur, sessions d' !! i = Some s' -> duration_ms s' = Some dur ->
                     (∃ s, sessions d !! i = Some s ∧ duration_ms s = Some dur) ∨ 0 <= dur).
Proof.
  intros Hd Hm Hpast. destruct (call_clock_monotone c w Hm) as [_ Hnow].
  rewrite (call_db c w d Hd). eexists; split; [done|].
  unfold started_in_past in *.
  destruct c as [f p|i].
  - unfold insert_session; cbn [snd sessions]. split; [|split].
    + intros j s. rewrite lookup_insert. case_decide.
      * intros [= <-]. cbn. done.
      * intros Hj. specialize (Hpast j s Hj). lia.
    + intros g. unfold file_total. cbn. lia.
    + intros j s' dur. rewrite lookup_insert. case_decide.
      * intros [= <-]. cbn. done.
      * eauto.
  - destruct (sessions d !! i) as [row|] eqn:Hrow.
    2:{ split; [|split].
        - intros j s Hj. specialize (Hpast j s Hj). lia.
        - intros; lia.
        - eauto. }
    pose proof (Hpast i row Hrow) as Hrowpast. split; [|split].
    + intros j s. unfold ended_database; cbn [sessions]. rewrite lookup_alter.
      case_decide.
      * subst j. rewrite Hrow. cbn [fmap option_fmap option_map].
        intros [= <-]. unfold close_row; cbn [start_time]. lia.
      * intros Hj. specialize (Hpast j s Hj). lia.
    + intros g. rewrite file_total_ended. case_decide; lia.
    + intros j s' dur. unfold ended_database; cbn [sessions]. rewrite lookup_alter.
      case_decide.
      * subst j. rewrite Hrow. cbn. intros [= <-]. cbn. intros [= <-]. right. lia.
      * eauto.
Qed.

(** X5.  If the clock never goes back and no session starts in the future,
    then through any sequence of [startSession] and [endSession] calls no
    file's [total_time_ms] decreases, and every [duration_ms] that the calls
    write is at least 0. *)
Theorem calls_totals_never_decrease (cs : list StoreCall) (w : World) (d : Database) :
  db (store w) = Some d -> clock_monotone w -> started_in_past w d ->
  ∃ d', db (store (calls cs w)) = Some d' ∧
        (∀ f, file_total d f <= file_total d' f) ∧
        (∀ i s' dur, sessions d' !! i = Some s' -> duration_ms s' = Some dur ->
                     (∃ s, sessions d !! i = Some s ∧ duration_ms s = Some dur) ∨ 0 <= dur).
Proof.
  revert w d. induction cs as [|c cs IH]; intros w d Hd Hm Hpast; cbn.
  - exists d. split; [done|]. split; [intros; lia|]. eauto.
  - destruct (call_totals c w d Hd Hm Hpast) as (d1 & Hd1 & Hpast1 & Htot1 & Hdur1).
    destruct (call_clock_monotone c w Hm) as [Hm1 _].
    destruct (IH _ d1 Hd1 Hm1 Hpast1) as (d' & Hd' & Htot & Hdur).
    exists d'. split; [done|]. split.
    + intros f. specialize (Htot1 f). specialize (Htot f). lia.
    + intros i s' dur Hs' Hdur'.
      destruct (Hdur i s' dur Hs' Hdur') as [(s1 & Hs1 & Hd1')|]; [|by right].
      apply (Hdur1 i s1 dur Hs1 Hd1').
Qed.

Lemma calls_totals_never_decrease_witness :
  ∃ d', db (store (calls [CallStart "/ws/a.ts" None; CallEnd 2; CallEnd 1] closed_once))
          = Some d' ∧
        500 <= file_total d' "/ws/a.ts".
Proof.
  destruct (calls_totals_never_decrease [CallStart "/ws/a.ts" None; CallEnd 2; CallEnd 1]
              closed_once (default empty_database (db (store closed_once))))
    as (d' & H1 & H2 & _).
  - vm_compute. reflexivity.
  - intros n m _ Hnm. change (clock (host closed_once)) with (linear_clock 1000 500).
    unfold linear_clock. lia.
  - intros i s Hs. change (sessions _) with ({[1 := {| file_path := "/ws/a.ts";
      project_path := Some "/ws"; start_time := 1000; end_time := Some 1500;
      duration_ms := Some 500 |}]} : gmap Z Session) in Hs.
    apply lookup_singleton_Some in Hs as [_ <-]. vm_compute. discriminate.
  - exists d'. split; [exact H1|]. exact (H2 "/ws/a.ts").
Defined.

(** ** Opening, closing and reading back *)

(** X6.  A session opened with [startSession] and ended with [endSession]
    under the returned id is read back by [getFileStats]: the file's row has
    the old total (0 without a row) plus the difference of the two clock
    readings, [last_active] is the second reading, and the project is the
    one given unless the file had a row already. *)
Theorem start_end_getFileStats (w : World) (d : Database) (f : string)
    (p : option string) :
  db (store w) = Some d ->
  let t1 := clock (host w) (ticks (host w)) in
  let t2 := clock (host w) (S (ticks (host w))) in
  ∃ i w1 w2,
    startSession f p w = (Ok i, w1) ∧
    endSession i w1 = (Ok tt, w2) ∧
    (getFileStats f w2).1 =
      Ok (Some {| fs_project_path :=
                    match file_stats d !! f with
                    | Some r => fs_project_path r
                    | None => p
                    end;
                  total_time_ms := file_total d f + (t2 - t1);
                  last_active := t2 |}).
Proof.
  intros Hd t1 t2. eexists _, _, _.
  split; [by rewrite startSession_eq, Hd|].
  rewrite endSession_eq. cbn [store with_store db].
  unfold insert_session at 1. cbn [snd sessions]. rewrite lookup_insert_eq.
  split; [done|].
  rewrite getFileStats_eq. cbn.
  unfold file_total. destruct (file_stats d !! f) as [r|] eqn:Hr.
  - rewrite lookup_alter_eq, Hr. cbn. unfold add_time, now. cbn. do 3 f_equal.
  - rewrite lookup_insert_eq. unfold now. cbn. do 3 f_equal.
Qed.

Lemma start_end_getFileStats_witness :
  ∃ i w1 w2,
    startSession "/ws/a.ts" None closed_once = (Ok i, w1) ∧
    endSession i w1 = (Ok tt, w2) ∧
    (getFileStats "/ws/a.ts" w2).1 =
      Ok (Some {| fs_project_path := Some "/ws"; total_time_ms := 1000;
                  last_active := 2500 |}).
Proof.
  destruct (start_end_getFileStats closed_once
              (default empty_database (db (store closed_once))) "/ws/a.ts" None)
    as (i & w1 & w2 & H1 & H2 & H3).
  - vm_compute. reflexivity.
  - exists i, w1, w2. split; [exact H1|]. split; [exact H2|]. exact H3.
Defined.

(** ** close *)

Lemma elem_of_ongoing (m : gmap Z Session) (i : Z) (s : Session) :
  (i, s) ∈ ongoing m ↔ m !! i = Some s ∧ end_time s = None.
Proof.
  unfold ongoing. rewrite elem_of_map_to_list, map_lookup_filter_Some. done.
Qed.

Lemma end_all_cons (i : Z) (s : Session) (l : list (Z * Session)) (w : World) :
  end_all ((i, s) :: l) w =
  if decide (i = 0) then end_all l w
  else match endSession i w with
       | (Ok _, w1) => end_all l w1
       | (Throw msg, w1) => (Throw msg, w1)
       end.
Proof.
  cbn [end_all]. unfold mbind, M_bind, bind. destruct (decide (i = 0)); [done|].
  by destruct (endSession i w) as [[[]|msg] w1].
Qed.

(** The loop of [close] over a list of distinct ids of open rows. *)
Lemma end_all_spec (l : list (Z * Session)) (w : World) (d : Database) :
  db (store w) = Some d -> NoDup l.*1 ->
  (∀ i s, (i, s) ∈ l -> ∃ row, sessions d !! i = Some row ∧ end_time row = None) ->
  ∃ w' d',
    end_all l w = (Ok tt, w') ∧ db (store w') = Some d' ∧
    tracker w' = tracker w ∧ disk (host w') = disk (host w) ∧
    (∀ j, j ∈ l.*1 -> j ≠ 0 -> ∃ s, sessions d' !! j = Some s ∧ is_Some (end_time s)) ∧
    (∀ j, j ∉ l.*1 ∨ j = 0 -> sessions d' !! j = sessions d !! j) ∧
    (∀ j, is_Some (sessions d' !! j) ↔ is_Some (sessions d !! j)) ∧
    (aggregates_consistent d -> aggregates_consistent d').
Proof.
  revert w d. induction l as [|[i s] l IH]; intros w d Hd Hnd Hopen.
  - exists w, d. cbn. split; [done|]. split; [done|]. split; [done|]. split; [done|].
    split; [intros j Hj; by apply elem_of_nil in Hj|]. done.
  - apply NoDup_cons in Hnd as [Hi Hnd]. rewrite end_all_cons.
    assert (Htail : ∀ d1, (∀ j, j ≠ i -> sessions d1 !! j = sessions d !! j) ->
              ∀ j s', (j, s') ∈ l ->
              ∃ row, sessions d1 !! j = Some row ∧ end_time row = None).
    { intros d1 Hd1 j s' Hj. rewrite Hd1.
      - apply (Hopen j s'). by right.
      - intros ->. apply Hi. apply list_elem_of_fmap. by exists (i, s'). }
    destruct (decide (i = 0)) as [->|Hi0].
    + destruct (IH w d Hd Hnd (Htail d (fun _ _ => eq_refl)))
        as (w' & d' & He & Hd' & Ht & Hdisk & Hcl & Hsame & Hdom & Hagg).
      exists w', d'. do 4 (split; [done|]). split; [|split; [|done]].
      * intros j Hj Hj0. apply Hcl; [|done].
        cbn in Hj. apply elem_of_cons in Hj as [?|?]; [done|done].
      * intros j [Hj| ->]; apply Hsame; [|by left].
        left. intros Hin. apply Hj. cbn. by right.
    + destruct (Hopen i s) as (row & Hrow & Hrowopen); [by left|].
      rewrite endSession_eq, Hd, Hrow.
      set (d1 := ended_database i (now w) row d).
      set (w1 := with_store _ (tick w)).
      assert (Hne : ∀ j, j ≠ i -> sessions d1 !! j = sessions d !! j).
      { intros j Hj. unfold d1, ended_database; cbn. by rewrite lookup_alter_ne. }
      destruct (IH w1 d1 eq_refl Hnd (Htail d1 Hne))
        as (w' & d' & He & Hd' & Ht & Hdisk & Hcl & Hsame & Hdom & Hagg).
      exists w', d'. do 4 (split; [done|]).
      assert (Hi' : sessions d' !! i = Some (close_row (now w) (now w - start_time row) row)).
      { rewrite Hsame by (by left). unfold d1, ended_database; cbn.
        by rewrite lookup_alter_eq, Hrow. }
      split; [|split; [|split]].
      * intros j Hj Hj0. cbn in Hj. apply elem_of_cons in Hj as [->|Hj]; [|by apply Hcl].
        eexists. split; [exact Hi'|]. cbn. eauto.
      * intros j Hj. assert (j ≠ i).
        { destruct Hj as [Hj| ->]; [|done]. intros ->. apply Hj. cbn. by left. }
        rewrite <- Hne by done. apply Hsame.
        destruct Hj as [Hj|Hj]; [|by right]. left. intros Hin. apply Hj. cbn. by right.
      * intros j. rewrite Hdom. destruct (decide (j = i)) as [->|Hj].
        -- unfold d1, ended_database; cbn. by rewrite lookup_alter_is_Some.
        -- by rewrite Hne.
      * intros Hc. apply Hagg. by apply ended_database_consistent.
Qed.

Lemma saveToDisk_eq (w : World) :
  saveToDisk w =
  (Ok tt, match db (store w) with
          | Some d => with_host (with_disk (Some d) (host w)) w
          | None => w
          end).
Proof. unfold saveToDisk. unfold_m. by destruct (db (store w)). Qed.

Lemma close_eq (w : World) :
  close w =
  let w0 := with_store (with_saveTimeout false (store w)) w in
  match db (store w) with
  | None => (Ok tt, w0)
  | Some d =>
      match end_all (ongoing (sessions d)) w0 with
      | (Ok _, w1) =>
          (Ok tt, with_store (with_db None (store (saveToDisk w1).2)) (saveToDisk w1).2)
      | (Throw msg, w1) => (Throw msg, w1)
      end
  end.
Proof.
  unfold close.
  unfold mbind at 1 2, M_bind at 1 2, bind at 1 2, modify_store at 1, modify at 1, get at 1.
  cbn [store with_store db with_saveTimeout].
  destruct (db (store w)) as [d|] eqn:Hd; [|done].
  unfold mbind at 1, M_bind at 1, bind at 1. rewrite getOngoingSessions_eq.
  cbn [store with_store db with_saveTimeout]. rewrite Hd.
  unfold mbind, M_bind, bind.
  destruct (end_all (ongoing (sessions d)) _) as [[[]|msg] w1]; [|done].
  rewrite saveToDisk_eq. done.
Qed.

Lemma close_spec (w : World) (d : Database) :
  db (store w) = Some d ->
  ∃ w' d',
    close w = (Ok tt, w') ∧
    db (store w') = None ∧
    disk (host w') = Some d' ∧
    tracker w' = tracker w ∧
    (∀ j s, sessions d' !! j = Some s -> j ≠ 0 -> is_Some (end_time s)) ∧
    (∀ j s, sessions d !! j = Some s -> is_Some (end_time s) -> sessions d' !! j = Some s) ∧
    (∀ j, is_Some (sessions d' !! j) ↔ is_Some (sessions d !! j)) ∧
    (aggregates_consistent d -> aggregates_consistent d').
Proof.
  intros Hd. rewrite close_eq, Hd. cbv zeta.
  set (w0 := with_store (with_saveTimeout false (store w)) w).
  destruct (end_all_spec (ongoing (sessions d)) w0 d)
    as (w1 & d' & He & Hd' & Ht & _ & Hcl & Hsame & Hdom & Hagg).
  { by cbn; rewrite Hd. }
  { apply NoDup_fst_map_to_list. }
  { intros i s Hi. apply elem_of_ongoing in Hi. eauto. }
  rewrite He, saveToDisk_eq, Hd'. cbn.
  eexists _, d'. split; [done|]. split; [done|]. split; [done|]. split; [done|].
  split; [|split; [|done]].
  - intros j s Hs Hj0. destruct (sessions d !! j) as [s0|] eqn:Hs0.
    2:{ assert (is_Some (sessions d !! j)) as [? ?]; [|congruence].
        apply Hdom. eauto. }
    destruct (end_time s0) as [e|] eqn:He0.
    + rewrite Hsame, Hs0 in Hs; [by simplify_eq; rewrite He0|].
      left. intros Hin. apply list_elem_of_fmap in Hin as ([j' s'] & -> & Hin).
      apply elem_of_ongoing in Hin as [? ?]. cbn in *. congruence.
    + destruct (Hcl j) as (s' & Hs' & Hc); [|done|congruence].
      apply list_elem_of_fmap. exists (j, s0). split; [done|]. by apply elem_of_ongoing.
  - intros j s Hs Hc. rewrite Hsame; [done|].
    left. intros Hin. apply list_elem_of_fmap in Hin as ([j' s'] & -> & Hin).
    apply elem_of_ongoing in Hin as [? ?]. cbn in *. simplify_eq.
    destruct Hc as [? ?]. congruence.
Qed.

(** X7.  [close] on an open database ends every row that is still open
    (except one with id 0, which the truthiness test skips), writes the
    result to disk and drops the handle.  Rows that were closed are written
    unchanged, none is added or lost, totals that matched the closed
    durations still match in the file, and the tracker is not told. *)
Theorem close_ends_and_saves (w : World) (d : Database) :
  db (store w) = Some d ->
  ∃ w' d',
    close w = (Ok tt, w') ∧
    db (store w') = None ∧
    disk (host w') = Some d' ∧
    tracker w' = tracker w ∧
    (∀ j s, sessions d' !! j = Some s -> j ≠ 0 -> is_Some (end_time s)) ∧
    (∀ j s, sessions d !! j = Some s -> is_Some (end_time s) -> sessions d' !! j = Some s) ∧
    (∀ j, is_Some (sessions d' !! j) ↔ is_Some (sessions d !! j)) ∧
    (aggregates_consistent d -> aggregates_consistent d').
Proof. exact (close_spec w d). Qed.

Lemma close_ends_and_saves_witness :
  ∃ w' d', close one_open_session = (Ok tt, w') ∧ disk (host w') = Some d' ∧
           ∀ j s, sessions d' !! j = Some s -> j ≠ 0 -> is_Some (end_time s).
Proof.
  destruct (close_ends_and_saves one_open_session
              (default empty_database (db (store one_open_session))))
    as (w' & d' & H1 & _ & H2 & _ & H3 & _).
  - vm_compute. reflexivity.
  - exists w', d'. split; [exact H1|]. split; [exact H2 | exact H3].
Defined.

Lemma close_drops_handle (w : World) : db (store (close w).2) = None.
Proof.
  destruct (db (store w)) as [d|] eqn:Hd.
  - by destruct (close_spec w d Hd) as (w' & d' & -> & ? & _).
  - by rewrite close_eq, Hd.
Qed.

(** X8.  [close] may be called again: whatever the first call did, the
    second returns normally and leaves the handle, the file on disk, the
    clock and the tracker as the first call left them (it only clears the
    save timer that the first call's [endSession]s may have set again). *)
Theorem close_twice (w : World) :
  let w1 := (close w).2 in
  close w1 = (Ok tt, with_store (with_saveTimeout false (store w1)) w1) ∧
  db (store (close w1).2) = db (store w1) ∧
  host (close w1).2 = host w1 ∧
  tracker (close w1).2 = tracker w1.
Proof.
  intros w1. pose proof (close_drops_handle w) as Hd. fold w1 in Hd.
  rewrite close_eq, Hd. cbn. by rewrite Hd.
Qed.

(** X9.  What [close] writes is what the next [initialize] loads: after
    [close] and [initialize] the handle holds the saved database, and
    [getOngoingSessions] finds no open row there other than one with id 0. *)
Theorem close_initialize_round_trip (w : World) (d : Database) :
  db (store w) = Some d ->
  let w1 := (close w).2 in
  let w2 := (initialize w1).2 in
  (initialize w1).1 = Ok tt ∧
  is_Some (db (store w2)) ∧
  db (store w2) = disk (host w1) ∧
  ∃ l, (getOngoingSessions w2).1 = Ok l ∧ ∀ i s, (i, s) ∈ l -> i = 0.
Proof.
  intros Hd w1 w2.
  destruct (close_spec w d Hd) as (w' & d' & Hc & _ & Hdisk & _ & Hcl & _).
  subst w2 w1. rewrite Hc. cbn [snd].
  unfold initialize. unfold_m. cbn. rewrite Hdisk. cbn.
  split; [done|]. split; [eauto|]. split; [done|].
  rewrite getOngoingSessions_eq. cbn. eexists. split; [done|].
  intros i s Hi. apply elem_of_ongoing in Hi as [Hs Hopen].
  destruct (decide (i = 0)) as [|Hi0]; [done|].
  destruct (Hcl i s Hs Hi0) as [? ?]. congruence.
Qed.

Lemma close_initialize_round_trip_witness :
  ∃ l, (getOngoingSessions (initialize (close one_open_session).2).2).1 = Ok l ∧
       ∀ i s, (i, s) ∈ l -> i = 0.
Proof.
  destruct (close_initialize_round_trip one_open_session
              (default empty_database (db (store one_open_session))))
    as (_ & _ & _ & H).
  - vm_compute. reflexivity.
  - exact H.
Defined.

(** ** The sorted queries *)

#[local] Instance by_total_desc_total : Total by_total_desc.
Proof. intros a b. unfold by_total_desc. lia. Qed.

#[local] Instance by_total_desc_trans : Transitive by_total_desc.
Proof. intros a b c. unfold by_total_desc. lia. Qed.

#[local] Instance by_project_total_desc_total : Total by_project_total_desc.
Proof. intros a b. unfold by_project_total_desc. lia. Qed.

#[local] Instance by_project_total_desc_trans : Transitive by_project_total_desc.
Proof. intros a b c. unfold by_project_total_desc. lia. Qed.

Lemma getAllFileStats_eq (w : World) :
  getAllFileStats w =
  match db (store w) with
  | None => (Throw "Database not initialized", w)
  | Some d => (Ok (merge_sort by_total_desc (map_to_list (file_stats d))), w)
  end.
Proof. unfold getAllFileStats. unfold_m. by destruct (db (store w)). Qed.

Lemma getFileStatsByProject_eq (p : string) (w : World) :
  getFileStatsByProject p w =
  match db (store w) with
  | None => (Throw "Database not initialized", w)
  | Some d =>
      (Ok (merge_sort by_total_desc (map_to_list (files_of p (file_stats d)))), w)
  end.
Proof. unfold getFileStatsByProject. unfold_m. by destruct (db (store w)). Qed.

Lemma getProjectStats_eq (w : World) :
  getProjectStats w =
  match db (store w) with
  | None => (Throw "Database not initialized", w)
  | Some d =>
      (Ok (merge_sort by_project_total_desc
             (map_to_list (project_groups (file_stats d)))), w)
  end.
Proof. unfold getProjectStats. unfold_m. by destruct (db (store w)). Qed.

(** X10.  [getAllFileStats] changes nothing and returns every row of
    [file_stats] exactly once, each total at least as large as all totals
    after it; a row is in the list exactly when [getFileStats] returns it
    for its key. *)
Theorem getAllFileStats_sorted (w : World) (d : Database) :
  db (store w) = Some d ->
  ∃ l, getAllFileStats w = (Ok l, w) ∧
       StronglySorted by_total_desc l ∧
       NoDup l.*1 ∧
       length l = size (file_stats d) ∧
       (∀ f r, (f, r) ∈ l ↔ getFileStats f w = (Ok (Some r), w)).
Proof.
  intros Hd. rewrite getAllFileStats_eq, Hd. eexists. split; [done|].
  split; [apply StronglySorted_merge_sort; apply _|].
  split; [by rewrite merge_sort_Permutation; apply NoDup_fst_map_to_list|].
  split; [by rewrite merge_sort_Permutation, length_map_to_list|].
  intros f r. rewrite merge_sort_Permutation, elem_of_map_to_list.
  rewrite getFileStats_eq, Hd. split; [by intros ->|]. by intros [= ->].
Qed.

Lemma getAllFileStats_sorted_witness :
  ∃ l, getAllFileStats closed_once = (Ok l, closed_once) ∧ length l = 1%nat.
Proof.
  destruct (getAllFileStats_sorted closed_once
              (default empty_database (db (store closed_once))))
    as (l & H1 & _ & _ & H2 & _).
  - vm_compute. reflexivity.
  - exists l. split; [exact H1|]. rewrite H2. vm_compute. reflexivity.
Defined.

Lemma sum_total_empty : sum_total ∅ = 0.
Proof. unfold sum_total. by rewrite map_fold_empty. Qed.

Lemma sum_total_insert (m : gmap string FileStats) (f : string) (r : FileStats) :
  m !! f = None -> sum_total (<[f := r]> m) = total_time_ms r + sum_total m.
Proof.
  intros Hf. unfold sum_total.
  rewrite map_fold_insert_L; [done | intros; lia | done].
Qed.

Lemma files_of_insert_other (p : string) (m : gmap string FileStats) (f : string)
    (r : FileStats) :
  m !! f = None -> fs_project_path r ≠ Some p ->
  files_of p (<[f := r]> m) = files_of p m.
Proof.
  intros Hf Hp. unfold files_of. rewrite map_filter_insert, decide_False by done.
  by rewrite delete_id.
Qed.

Lemma files_of_insert_same (p : string) (m : gmap string FileStats) (f : string)
    (r : FileStats) :
  fs_project_path r = Some p ->
  files_of p (<[f := r]> m) = <[f := r]> (files_of p m).
Proof. intros Hp. unfold files_of. by rewrite map_filter_insert, decide_True. Qed.

Lemma files_of_lookup (p : string) (m : gmap string FileStats) (f : string) (r : FileStats) :
  files_of p m !! f = Some r ↔ m !! f = Some r ∧ fs_project_path r = Some p.
Proof. unfold files_of. by rewrite map_lookup_filter_Some. Qed.

(** [GROUP BY]: a project has a row exactly when it has files, and the row
    aggregates those files. *)
Lemma project_groups_spec (m : gmap string FileStats) (p : string) :
  (project_groups m !! p = None ↔ files_of p m = ∅) ∧
  (∀ a, project_groups m !! p = Some a -> is_project_aggregate m p a).
Proof.
  unfold project_groups. revert p.
  apply (map_fold_weak_ind (fun r m => ∀ p,
    (r !! p = None ↔ files_of p m = ∅) ∧
    (∀ a, r !! p = Some a -> is_project_aggregate m p a))).
  - intros p. split; [by rewrite lookup_empty; unfold files_of; rewrite map_filter_empty|].
    intros a. by rewrite lookup_empty.
  - intros f x m' r Hf IH p. destruct (IH p) as [IHn IHa].
    destruct (fs_project_path x) as [q|] eqn:Hq.
    2:{ unfold is_project_aggregate.
        rewrite files_of_insert_other by (done || congruence). done. }
    destruct (decide (q = p)) as [->|Hne].
    2:{ rewrite lookup_partial_alter_ne by done. unfold is_project_aggregate.
        rewrite files_of_insert_other by (done || congruence). done. }
    rewrite lookup_partial_alter_eq.
    assert (Hfg : files_of p m' !! f = None).
    { apply eq_None_not_Some. intros [y Hy]. apply files_of_lookup in Hy as [? ?].
      congruence. }
    split.
    { split; [done|]. rewrite files_of_insert_same by done.
      intros He. apply (f_equal (lookup f)) in He.
      by rewrite lookup_insert_eq, lookup_empty in He. }
    intros a Ha. unfold is_project_aggregate.
    rewrite files_of_insert_same by done.
    rewrite sum_total_insert, map_size_insert_None by done.
    split.
    { intros He. apply (f_equal (lookup f)) in He.
      by rewrite lookup_insert_eq, lookup_empty in He. }
    destruct (r !! p) as [a0|] eqn:Hr; unfold add_to_project in Ha; simplify_eq;
      cbn [ps_total_time_ms file_count ps_last_active].
    + destruct (IHa a0 eq_refl) as (_ & Hsum & Hcnt & (f0 & r0 & Hf0 & Hl0) & Hmax).
      split; [lia|]. split; [lia|]. split.
      * destruct (Z.max_spec (ps_last_active a0) (last_active x)) as [[_ ->]|[_ ->]].
        -- exists f, x. by rewrite lookup_insert_eq.
        -- exists f0, r0. rewrite lookup_insert_ne by congruence. done.
      * intros g y. rewrite lookup_insert. case_decide.
        -- intros [= <-]. lia.
        -- intros Hg. specialize (Hmax g y Hg). lia.
    + assert (He : files_of p m' = ∅) by by apply IHn.
      rewrite He, sum_total_empty, map_size_empty.
      split; [lia|]. split; [done|]. split.
      * exists f, x. by rewrite lookup_insert_eq.
      * intros g y. rewrite lookup_insert. case_decide.
        -- by intros [= <-].
        -- by rewrite lookup_empty.
Qed.

(** X11.  [getProjectStats] changes nothing and returns one row per project
    that some [file_stats] row names, and none for files without a project;
    the row carries the sum of the totals of the project's files, their
    number (at least 1) and the latest of their [last_active]; the rows come
    with the largest total first. *)
Theorem getProjectStats_groups (w : World) (d : Database) :
  db (store w) = Some d ->
  ∃ l, getProjectStats w = (Ok l, w) ∧
       StronglySorted by_project_total_desc l ∧
       NoDup l.*1 ∧
       (∀ p a, (p, a) ∈ l -> is_project_aggregate (file_stats d) p a ∧ 1 <= file_count a) ∧
       (∀ p, p ∈ l.*1 ↔ ∃ f r, file_stats d !! f = Some r ∧ fs_project_path r = Some p).
Proof.
  intros Hd. rewrite getProjectStats_eq, Hd. eexists. split; [done|].
  split; [apply StronglySorted_merge_sort; apply _|].
  split; [by rewrite merge_sort_Permutation; apply NoDup_fst_map_to_list|].
  split.
  - intros p a. rewrite merge_sort_Permutation, elem_of_map_to_list. intros Ha.
    destruct (project_groups_spec (file_stats d) p) as [_ Hagg].
    specialize (Hagg a Ha). split; [done|].
    destruct Hagg as (Hne & _ & -> & _).
    apply map_size_non_empty_iff in Hne. lia.
  - intros p. rewrite merge_sort_Permutation.
    destruct (project_groups_spec (file_stats d) p) as [Hnone Hagg]. split.
    + intros Hin. apply list_elem_of_fmap in Hin as ([p' a] & -> & Hin).
      apply elem_of_map_to_list in Hin. destruct (Hagg a Hin) as (_ & _ & _ & (f & r & Hf & _) & _).
      apply files_of_lookup in Hf. eauto.
    + intros (f & r & Hf & Hp).
      destruct (project_groups (file_stats d) !! p) as [a|] eqn:Ha.
      * apply list_elem_of_fmap. exists (p, a). split; [done|]. by apply elem_of_map_to_list.
      * pose proof (proj1 Hnone eq_refl) as He. apply (f_equal (lookup f)) in He.
        rewrite lookup_empty in He. apply eq_None_not_Some in He. destruct He.
        exists r. by apply files_of_lookup.
Qed.

Lemma getProjectStats_groups_witness :
  ∃ l, getProjectStats closed_once = (Ok l, closed_once) ∧
       ∀ p a, (p, a) ∈ l -> 1 <= file_count a.
Proof.
  destruct (getProjectStats_groups closed_once
              (default empty_database (db (store closed_once))))
    as (l & H1 & _ & _ & H2 & _).
  - vm_compute. reflexivity.
  - exists l. split; [exact H1|]. intros p a Hin. exact (proj2 (H2 p a Hin)).
Defined.

(** The example of two projects: /ws/a with files of 100 and 200 ms, /ws/b
    with one file of 50 ms. *)
Example getProjectStats_two_projects :
  let d := {| sessions := ∅;
              file_stats :=
                {[ "/ws/a/x.ts" := {| fs_project_path := Some "/ws/a"; total_time_ms := 100;
                                      last_active := 7 |};
                   "/ws/a/y.ts" := {| fs_project_path := Some "/ws/a"; total_time_ms := 200;
                                      last_active := 9 |};
                   "/ws/b/z.ts" := {| fs_project_path := Some "/ws/b"; total_time_ms := 50;
                                      last_active := 8 |};
                   "/tmp/q.ts" := {| fs_project_path := None; total_time_ms := 1000;
                                     last_active := 3 |} ]};
              sqlite_sequence := 0 |} in
  (getProjectStats (with_store {| db := Some d; saveTimeout := false |}
                      (fresh_world (linear_clock 0 1) None))).1 =
  Ok [("/ws/a", {| ps_total_time_ms := 300; file_count := 2; ps_last_active := 9 |});
      ("/ws/b", {| ps_total_time_ms := 50; file_count := 1; ps_last_active := 8 |})].
Proof. vm_compute. reflexivity. Qed.

Lemma totalTimeAllFiles_acc (l : list (string * FileStats)) (a : Z) :
  foldl (fun sum f => sum + total_time_ms f.2) a l = a + totalTimeAllFiles l.
Proof.
  unfold totalTimeAllFiles. revert a. induction l as [|x l IH]; intros a; cbn; [lia|].
  rewrite (IH (a + _)), (IH (0 + _)). lia.
Qed.

Lemma totalTimeAllFiles_cons (x : string * FileStats) (l : list (string * FileStats)) :
  totalTimeAllFiles (x :: l) = total_time_ms x.2 + totalTimeAllFiles l.
Proof. unfold totalTimeAllFiles at 1. cbn. by rewrite totalTimeAllFiles_acc. Qed.

Lemma totalTimeAllFiles_perm (l1 l2 : list (string * FileStats)) :
  l1 ≡ₚ l2 -> totalTimeAllFiles l1 = totalTimeAllFiles l2.
Proof.
  induction 1 as [|x l1 l2 _ IH|x y l|l1 l2 l3 _ IH1 _ IH2].
  - done.
  - rewrite !totalTimeAllFiles_cons. lia.
  - rewrite !totalTimeAllFiles_cons. lia.
  - congruence.
Qed.

Lemma totalTimeAllFiles_map_to_list (m : gmap string FileStats) :
  totalTimeAllFiles (map_to_list m) = sum_total m.
Proof.
  induction m as [|f r m Hf IH] using map_ind.
  - by rewrite map_to_list_empty, sum_total_empty.
  - rewrite (totalTimeAllFiles_perm _ _ (map_to_list_insert m f r Hf)).
    rewrite totalTimeAllFiles_cons, sum_total_insert by done. cbn. lia.
Qed.

(** X12.  [getFileStatsByProject p] returns, largest total first, exactly
    the [file_stats] rows whose project is [p]; their number and the sum of
    their totals are the [file_count] and [total_time_ms] that
    [getProjectStats] reports for [p], and the list is empty exactly when
    [getProjectStats] has no row for [p]. *)
Theorem getFileStatsByProject_matches (w : World) (d : Database) (p : string) :
  db (store w) = Some d ->
  ∃ l ps,
    getFileStatsByProject p w = (Ok l, w) ∧
    getProjectStats w = (Ok ps, w) ∧
    StronglySorted by_total_desc l ∧
    (∀ f r, (f, r) ∈ l ↔ file_stats d !! f = Some r ∧ fs_project_path r = Some p) ∧
    (∀ a, (p, a) ∈ ps ->
          file_count a = Z.of_nat (length l) ∧ ps_total_time_ms a = totalTimeAllFiles l) ∧
    (l = [] ↔ p ∉ ps.*1).
Proof.
  intros Hd. rewrite getFileStatsByProject_eq, getProjectStats_eq, Hd.
  eexists _, _. split; [done|]. split; [done|].
  split; [apply StronglySorted_merge_sort; apply _|].
  split.
  { intros f r. rewrite merge_sort_Permutation, elem_of_map_to_list.
    apply files_of_lookup. }
  destruct (project_groups_spec (file_stats d) p) as [Hnone Hagg].
  split.
  - intros a. rewrite merge_sort_Permutation, elem_of_map_to_list. intros Ha.
    destruct (Hagg a Ha) as (_ & Hsum & Hcnt & _).
    rewrite (totalTimeAllFiles_perm _ _ (merge_sort_Permutation _ _)).
    rewrite totalTimeAllFiles_map_to_list, merge_sort_Permutation, length_map_to_list.
    done.
  - rewrite <- Permutation_nil_r, merge_sort_Permutation, Permutation_nil_r.
    rewrite map_to_list_empty_iff, <- Hnone, merge_sort_Permutation.
    rewrite eq_None_not_Some. apply not_iff_compat. split.
    + intros [a Ha]. apply list_elem_of_fmap. exists (p, a).
      split; [done|]. by apply elem_of_map_to_list.
    + intros Hin. apply list_elem_of_fmap in Hin as ([p' a] & -> & Hin).
      apply elem_of_map_to_list in Hin. eauto.
Qed.

Lemma getFileStatsByProject_matches_witness :
  ∃ l, getFileStatsByProject "/ws" closed_once = (Ok l, closed_once) ∧
       ∀ f r, (f, r) ∈ l ↔
              file_stats (default empty_database (db (store closed_once))) !! f = Some r ∧
              fs_project_path r = Some "/ws".
Proof.
  destruct (getFileStatsByProject_matches closed_once
              (default empty_database (db (store closed_once))) "/ws")
    as (l & ps & H1 & _ & _ & H2 & _).
  - vm_compute. reflexivity.
  - exists l. split; [exact H1 | exact H2].
Defined.

(** ** The all-time total *)

Lemma sum_total_alter (m : gmap string FileStats) (f : string) (r : FileStats)
    (g : FileStats -> FileStats) :
  m !! f = Some r ->
  sum_total (alter g f m) = sum_total m - total_time_ms r + total_time_ms (g r).
Proof.
  intros Hf.
  assert (Ha : alter g f m = <[f := g r]> (delete f m)).
  { apply map_eq. intros k. rewrite lookup_alter, lookup_insert.
    case_decide; [by subst; rewrite Hf|]. by rewrite lookup_delete_ne. }
  rewrite Ha, sum_total_insert by apply lookup_delete_eq.
  rewrite <- (insert_delete_id m f r Hf) at 2.
  rewrite sum_total_insert by apply lookup_delete_eq. lia.
Qed.

Lemma sum_total_ended (i t : Z) (row : Session) (d : Database) :
  sum_total (file_stats (ended_database i t row d)) =
  sum_total (file_stats d) + (t - start_time row).
Proof.
  unfold ended_database; cbn [file_stats].
  destruct (file_stats d !! file_path row) as [r|] eqn:Hr.
  - rewrite (sum_total_alter _ _ r) by done. cbn. lia.
  - rewrite sum_total_insert by done. cbn. lia.
Qed.

Lemma closed_time_all_close_row (m : gmap Z Session) (i t dur : Z) (s : Session) :
  m !! i = Some s -> end_time s = None ->
  closed_time_all (alter (close_row t dur) i m) = closed_time_all m + dur.
Proof.
  intros Hi Hs. unfold closed_time_all.
  rewrite (sum_duration_filter_split _ (alter _ _ _) i (close_row t dur s))
    by (rewrite lookup_alter_eq, Hi; done).
  rewrite (sum_duration_filter_split _ m i s Hi), delete_alter_eq.
  rewrite (decide_True (P := is_Some (end_time (i, close_row t dur s).2))) by (cbn; eauto).
  rewrite (decide_False (P := is_Some (end_time (i, s).2))).
  2:{ cbn. rewrite Hs. by intros [? ?]. }
  cbn. lia.
Qed.

Lemma closed_time_all_insert_open (m : gmap Z Session) (i : Z) (s : Session) :
  m !! i = None -> end_time s = None ->
  closed_time_all (<[i := s]> m) = closed_time_all m.
Proof.
  intros Hi Hs. unfold closed_time_all.
  rewrite (sum_duration_filter_split _ (<[i := s]> m) i s) by apply lookup_insert_eq.
  rewrite delete_insert_id by done.
  rewrite decide_False; [lia|]. cbn. rewrite Hs. by intros [? ?].
Qed.

Lemma call_all_time_total (c : StoreCall) (w : World) (d : Database) :
  db (store w) = Some d ->
  sum_total (file_stats d) = closed_time_all (sessions d) ->
  match c with CallStart _ _ => true | CallEnd i => open_or_unknown i w end = true ->
  ∃ d', db (store (call c w).2) = Some d' ∧
        sum_total (file_stats d') = closed_time_all (sessions d').
Proof.
  intros Hd Hinv Hv. rewrite (call_db c w d Hd). eexists; split; [done|].
  destruct c as [f p|i].
  - unfold insert_session; cbn [snd sessions file_stats].
    rewrite closed_time_all_insert_open by (apply next_rowid_fresh || done). done.
  - unfold open_or_unknown in Hv. rewrite Hd in Hv.
    destruct (sessions d !! i) as [row|] eqn:Hrow; [|done].
    apply bool_decide_eq_true in Hv. rewrite sum_total_ended.
    unfold ended_database; cbn [sessions].
    rewrite (closed_time_all_close_row _ _ _ _ row) by done. lia.
Qed.

(** X13.  The number that the report prints as 'Total Time Tracked', the
    sum of [total_time_ms] over the rows of [getAllFileStats], is the sum
    of [duration_ms] over the closed sessions: this holds in an empty
    database and is kept by every sequence of [startSession] and
    [endSession] calls that end only open or unknown sessions. *)
Theorem report_total_is_closed_time (cs : list StoreCall) (w : World) (d : Database) :
  db (store w) = Some d ->
  sum_total (file_stats d) = closed_time_all (sessions d) ->
  closes_open_sessions cs w = true ->
  ∃ d' l, db (store (calls cs w)) = Some d' ∧
          (getAllFileStats (calls cs w)).1 = Ok l ∧
          totalTimeAllFiles l = closed_time_all (sessions d').
Proof.
  revert w d. induction cs as [|c cs IH]; intros w d Hd Hinv Hv; cbn.
  - exists d. rewrite getAllFileStats_eq, Hd. eexists. split; [done|]. split; [done|].
    rewrite (totalTimeAllFiles_perm _ _ (merge_sort_Permutation _ _)).
    by rewrite totalTimeAllFiles_map_to_list.
  - cbn in Hv. apply andb_true_iff in Hv as [Hv1 Hv2].
    destruct (call_all_time_total c w d Hd Hinv Hv1) as (d1 & Hd1 & Hinv1).
    by apply (IH _ d1).
Qed.

Lemma report_total_is_closed_time_witness :
  ∃ d' l, db (store (calls [CallStart "/ws/a.ts" None; CallStart "/ws/b.ts" None;
                            CallEnd 2; CallEnd 1]
                       (fresh_world (linear_clock 0 10) None))) = Some d' ∧
          (getAllFileStats (calls [CallStart "/ws/a.ts" None; CallStart "/ws/b.ts" None;
                                   CallEnd 2; CallEnd 1]
                              (fresh_world (linear_clock 0 10) None))).1 = Ok l ∧
          totalTimeAllFiles l = closed_time_all (sessions d').
Proof.
  apply (report_total_is_closed_time _ _ empty_database).
  - reflexivity.
  - vm_compute. reflexivity.
  - vm_compute. reflexivity.
Defined.

(** * Further properties of the tracker *)

(** ** The two session fields *)

Lemma startSession_tracker (f : string) (p : option string) (w : World) :
  tracker (startSession f p w).2 = tracker w.
Proof. rewrite startSession_eq. by destruct (db (store w)). Qed.

Lemma fields_step_refl (t t' : ActivityTracker) :
  currentSessionId t' = currentSessionId t -> currentFilePath t' = currentFilePath t ->
  fields_step t t'.
Proof. intros. by left. Qed.

Lemma fields_step_from (t0 t t' : ActivityTracker) :
  currentSessionId t = currentSessionId t0 -> currentFilePath t = currentFilePath t0 ->
  fields_step t t' -> fields_step t0 t'.
Proof. unfold fields_step. intros -> ->. done. Qed.

Lemma fields_step_to (t t' t1 : ActivityTracker) :
  currentSessionId t1 = currentSessionId t' -> currentFilePath t1 = currentFilePath t' ->
  fields_step t t' -> fields_step t t1.
Proof. unfold fields_step. intros -> ->. done. Qed.

Lemma endCurrentSession_fields (w : World) :
  fields_step (tracker w) (tracker (endCurrentSession w).2).
Proof.
  rewrite endCurrentSession_eq.
  destruct (currentSessionId (tracker w)) as [i|] eqn:Hc; [|by left].
  pose proof (endSession_tracker i w) as Ht.
  destruct (endSession i w) as [[[]|msg] w1]; cbn in *.
  - right. by left.
  - left. by rewrite Ht.
Qed.

Lemma startNewSession_fields (f : string) (w : World) :
  fields_step (tracker w) (tracker (startNewSession f w).2).
Proof.
  rewrite startNewSession_eq. pose proof (endCurrentSession_fields w) as H1.
  destruct (endCurrentSession w) as [[[]|msg] w1]; cbn in *; [|done].
  pose proof (startSession_tracker f (resolve_project f (workspaceFolders (host w1))) w1) as Ht.
  destruct (startSession f _ w1) as [[i|msg] w2]; cbn in *.
  - right. right. cbn. eauto.
  - by rewrite Ht.
Qed.

Lemma deliver_fields (e : Event) (w : World) :
  fields_step (tracker w) (tracker (deliver e w).2).
Proof.
  assert (Hact : ∀ f, fields_step (tracker w) (tracker (onActivity f w).2)).
  { intros f. rewrite onActivity_eq. destruct (_ && _); [by left|].
    apply (fields_step_from _ (tracker (touch (now w) (tick w)))); [done|done|].
    apply startNewSession_fields. }
  destruct e as [f|f|[] [f|]|f| |]; unfold deliver.
  - apply Hact.
  - rewrite onEditorChange_eq. destruct (bool_decide _); [|by left].
    pose proof (startNewSession_fields f w) as H.
    destruct (startNewSession f w) as [[[]|msg] w1]; cbn in *; [|done].
    by apply (fields_step_to _ (tracker w1)).
  - apply Hact.
  - by left.
  - rewrite window_blur_eq. by left.
  - rewrite window_blur_eq. by left.
  - apply Hact.
  - rewrite checkIdle_eq. destruct (currentSessionId (tracker w)) eqn:Hc; [|by left].
    destruct (bool_decide _); [|by left].
    apply (fields_step_from _ (tracker (tick w))); [done|done|].
    apply endCurrentSession_fields.
  - rewrite stop_eq.
    pose proof (endCurrentSession_fields
                  (with_tracker (set_heartbeatInterval false (tracker w)) w)) as H.
    destruct (endCurrentSession _) as [[[]|msg] w1]; cbn in *; [|done].
    by apply (fields_step_to _ (tracker w1)).
Qed.

(** X14.  Whatever events arrive and whether or not the store throws,
    [currentSessionId] and [currentFilePath] stay null together: after any
    run of a tracker that started that way, [isTracking()] is true exactly
    when [getCurrentFilePath()] returns a path. *)
Theorem run_session_fields_paired (es : list Event) (w : World) :
  session_fields_paired (tracker w) ->
  session_fields_paired (tracker (run es w)) ∧
  (isTracking (run es w) = true ↔ is_Some (getCurrentFilePath (run es w))).
Proof.
  intros Hp.
  assert (H : session_fields_paired (tracker (run es w))).
  { revert w Hp. induction es as [|e es IH]; intros w Hp; cbn; [done|].
    apply IH. pose proof (deliver_fields e w) as Hs.
    unfold session_fields_paired, fields_step in *.
    destruct Hs as [[-> ->]|[[-> ->]|[[? ->] [? ->]]]]; done. }
  split; [done|]. unfold isTracking, getCurrentFilePath.
  unfold session_fields_paired in H.
  destruct H as [H1 H2].
  destruct (currentSessionId (tracker (run es w))) as [i|],
           (currentFilePath (tracker (run es w))) as [f|].
  - split; [eauto|]. intros _. by apply bool_decide_eq_true_2.
  - by specialize (H2 eq_refl).
  - by specialize (H1 eq_refl).
  - split; [|by intros [? ?]]. intros Hb. apply bool_decide_eq_true in Hb. done.
Qed.

Lemma run_session_fields_paired_witness :
  isTracking (run [TextChange "/ws/b.ts"; Heartbeat] store_closed_while_tracking) = true ↔
  is_Some (getCurrentFilePath
             (run [TextChange "/ws/b.ts"; Heartbeat] store_closed_while_tracking)).
Proof.
  apply (run_session_fields_paired [TextChange "/ws/b.ts"; Heartbeat]
           store_closed_while_tracking).
  split; intros H; vm_compute in H; discriminate.
Defined.

(** ** What the events leave alone *)

Lemma host_kept_refl (w w' : World) : host w' = host w -> host_kept w w'.
Proof. intros H. unfold host_kept. rewrite H. by repeat split. Qed.

Lemma host_kept_tick (w w' : World) : host w' = host (tick w) -> host_kept w w'.
Proof. intros H. unfold host_kept. rewrite H. repeat split; cbn; lia. Qed.

Lemma host_kept_trans (w1 w2 w3 : World) :
  host_kept w1 w2 -> host_kept w2 w3 -> host_kept w1 w3.
Proof.
  intros (? & ? & ? & ? & ?) (? & ? & ? & ? & ?).
  repeat split; (congruence || lia).
Qed.

Lemma endSession_host (i : Z) (w : World) : host_kept w (endSession i w).2.
Proof.
  rewrite endSession_eq. destruct (db (store w)) as [d|]; [|by apply host_kept_refl].
  destruct (sessions d !! i); [by apply host_kept_tick | by apply host_kept_refl].
Qed.

Lemma startSession_host (f : string) (p : option string) (w : World) :
  host_kept w (startSession f p w).2.
Proof.
  rewrite startSession_eq.
  destruct (db (store w)); [by apply host_kept_tick | by apply host_kept_refl].
Qed.

Lemma endCurrentSession_host (w : World) : host_kept w (endCurrentSession w).2.
Proof.
  rewrite endCurrentSession_eq.
  destruct (currentSessionId (tracker w)) as [i|]; [|by apply host_kept_refl].
  pose proof (endSession_host i w) as H.
  by destruct (endSession i w) as [[[]|msg] w1].
Qed.

Lemma startNewSession_host (f : string) (w : World) : host_kept w (startNewSession f w).2.
Proof.
  rewrite startNewSession_eq. pose proof (endCurrentSession_host w) as H1.
  destruct (endCurrentSession w) as [[[]|msg] w1]; cbn in *; [|done].
  pose proof (startSession_host f (resolve_project f (workspaceFolders (host w1))) w1) as H2.
  destruct (startSession f _ w1) as [[i|msg] w2]; cbn in *.
  - apply (host_kept_trans _ w1); [done|]. apply (host_kept_trans _ w2); [done|].
    by apply host_kept_tick.
  - by apply (host_kept_trans _ w1).
Qed.

Lemma deliver_host (e : Event) (w : World) : host_kept w (deliver e w).2.
Proof.
  assert (Hact : ∀ f, host_kept w (onActivity f w).2).
  { intros f. rewrite onActivity_eq. destruct (_ && _); [by apply host_kept_tick|].
    apply (host_kept_trans _ (touch (now w) (tick w))); [by apply host_kept_tick|].
    apply startNewSession_host. }
  destruct e as [f|f|[] [f|]|f| |]; unfold deliver.
  - apply Hact.
  - rewrite onEditorChange_eq. destruct (bool_decide _); [|by apply host_kept_tick].
    pose proof (startNewSession_host f w) as H.
    destruct (startNewSession f w) as [[[]|msg] w1]; cbn in *; [|done].
    apply (host_kept_trans _ w1); [done|]. by apply host_kept_tick.
  - apply Hact.
  - by apply host_kept_refl.
  - rewrite window_blur_eq. by apply host_kept_tick.
  - rewrite window_blur_eq. by apply host_kept_tick.
  - apply Hact.
  - rewrite checkIdle_eq. destruct (currentSessionId (tracker w)); [|by apply host_kept_refl].
    destruct (bool_decide _); [|by apply host_kept_tick].
    apply (host_kept_trans _ (tick w)); [by apply host_kept_tick|].
    apply endCurrentSession_host.
  - rewrite stop_eq.
    pose proof (endCurrentSession_host
                  (with_tracker (set_heartbeatInterval false (tracker w)) w)) as H.
    by destruct (endCurrentSession _) as [[[]|msg] w1].
Qed.

Lemma run_host_kept (es : list Event) (w : World) : host_kept w (run es w).
Proof.
  revert w. induction es as [|e es IH]; intros w; cbn; [by apply host_kept_refl|].
  apply (host_kept_trans _ (deliver e w).2); [apply deliver_host | apply IH].
Qed.

(** X15.  No event writes the database file: after any run, with the store
    open or not, timetracker.db, the workspace folders and the clock are
    what they were; the events only read the clock.  (The file is written
    by [saveToDisk] alone, from the save timer and from [close].) *)
Theorem run_keeps_disk (es : list Event) (w : World) :
  disk (host (run es w)) = disk (host w) ∧
  workspaceFolders (host (run es w)) = workspaceFolders (host w) ∧
  clock (host (run es w)) = clock (host w) ∧
  (ticks (host w) <= ticks (host (run es w)))%nat.
Proof. destruct (run_host_kept es w) as (? & ? & ? & ? & ?). done. Qed.

(** ** The row behind the tracker's session *)

Lemma tracks_open_row_same (w w' : World) :
  currentSessionId (tracker w') = currentSessionId (tracker w) ->
  currentFilePath (tracker w') = currentFilePath (tracker w) ->
  db (store w') = db (store w) ->
  workspaceFolders (host w') = workspaceFolders (host w) ->
  tracks_open_row w -> tracks_open_row w'.
Proof. unfold tracks_open_row. intros -> -> -> ->. done. Qed.

Lemma tracks_open_row_none (w : World) :
  currentSessionId (tracker w) = None -> tracks_open_row w.
Proof. intros Hc i. by rewrite Hc. Qed.

Lemma startNewSession_tracks (f : string) (w : World) (d : Database) :
  db (store w) = Some d ->
  (startNewSession f w).1 = Ok tt ∧ is_Some (db (store (startNewSession f w).2)) ∧
  tracks_open_row (startNewSession f w).2.
Proof.
  intros Hd. pose proof (startNewSession_host f w) as (_ & _ & Hf & _).
  destruct (startNewSession_step f w d Hd) as (w' & t' & He & Hc & Hp & Hd').
  rewrite He in *. cbn [fst snd] in *. split; [done|]. split; [eauto|].
  intros i Hi. rewrite Hc in Hi. injection Hi as <-.
  eexists _, _. split; [exact Hd'|]. unfold insert_session; cbn [snd sessions].
  rewrite lookup_insert_eq. split; [done|]. cbn. by rewrite Hf.
Qed.

Lemma deliver_tracks (e : Event) (w : World) (d : Database) :
  db (store w) = Some d -> tracks_open_row w ->
  is_Some (db (store (deliver e w).2)) ∧ tracks_open_row (deliver e w).2.
Proof.
  intros Hd Ht.
  assert (Hact : ∀ f, is_Some (db (store (onActivity f w).2)) ∧
                      tracks_open_row (onActivity f w).2).
  { intros f. rewrite onActivity_eq. destruct (_ && _).
    - split; [cbn; eauto|]. by apply (tracks_open_row_same w).
    - by destruct (startNewSession_tracks f (touch (now w) (tick w)) d Hd) as (_ & ? & ?). }
  destruct e as [f|f|[] [f|]|f| |]; unfold deliver.
  - apply Hact.
  - rewrite onEditorChange_eq. destruct (bool_decide _).
    + destruct (startNewSession_tracks f w d Hd) as (Hok & Hdb & Htr).
      destruct (startNewSession f w) as [[[]|msg] w1]; cbn in *; [|done].
      split; [done|]. by apply (tracks_open_row_same w1).
    + split; [cbn; eauto|]. by apply (tracks_open_row_same w).
  - apply Hact.
  - split; [cbn; eauto|done].
  - rewrite window_blur_eq. split; [cbn; eauto|]. by apply (tracks_open_row_same w).
  - rewrite window_blur_eq. split; [cbn; eauto|]. by apply (tracks_open_row_same w).
  - apply Hact.
  - destruct (checkIdle_step w d Hd) as (w' & d' & He & Hd' & _). rewrite He. cbn.
    split; [eauto|]. revert He. rewrite checkIdle_eq.
    destruct (currentSessionId (tracker w)) as [i|] eqn:Hc.
    2:{ intros [= <-]. done. }
    destruct (bool_decide _).
    + destruct (endCurrentSession_step (tick w) d Hd) as (w1 & -> & Hc1 & _).
      intros [= <-]. by apply tracks_open_row_none.
    + intros [= <-]. by apply (tracks_open_row_same w).
  - destruct (stop_step w d Hd) as (w' & d' & He & Hd' & _). rewrite He. cbn.
    split; [eauto|]. revert He. rewrite stop_eq.
    destruct (endCurrentSession_step
                (with_tracker (set_heartbeatInterval false (tracker w)) w) d Hd)
      as (w1 & -> & Hc1 & _).
    intros [= <-]. by apply tracks_open_row_none.
Qed.

(** X16.  On an open database, after any run of a tracker that started
    without a session: if the tracker holds a session, its id is a row of
    [sessions] that is open, whose [file_path] is [getCurrentFilePath()] and
    whose [project_path] is the first workspace folder that is a prefix of
    that path. *)
Theorem run_tracks_open_row (es : list Event) (w0 : World) (d0 : Database) :
  db (store w0) = Some d0 -> currentSessionId (tracker w0) = None ->
  ∀ i, currentSessionId (tracker (run es w0)) = Some i ->
  ∃ d row, db (store (run es w0)) = Some d ∧ sessions d !! i = Some row ∧
           end_time row = None ∧
           getCurrentFilePath (run es w0) = Some (file_path row) ∧
           project_path row =
             resolve_project (file_path row) (workspaceFolders (host w0)).
Proof.
  intros Hd0 Hc0.
  assert (H : is_Some (db (store (run es w0))) ∧ tracks_open_row (run es w0)).
  { assert (Ht0 : tracks_open_row w0) by by apply tracks_open_row_none.
    clear Hc0. revert w0 d0 Hd0 Ht0.
    induction es as [|e es IH]; intros w d Hd Ht; cbn; [eauto|].
    destruct (deliver_tracks e w d Hd Ht) as [[d1 Hd1] Ht1]. by apply (IH _ d1). }
  destruct H as [_ Ht]. intros i Hi.
  destruct (Ht i Hi) as (d & row & Hd & Hrow & Hopen & Hfile & Hproj).
  exists d, row. do 4 (split; [done|]).
  rewrite Hproj. by destruct (run_host_kept es w0) as (_ & _ & -> & _).
Qed.

Lemma run_tracks_open_row_witness :
  ∃ d row, db (store tracking_a) = Some d ∧ sessions d !! 1 = Some row ∧
           end_time row = None ∧ getCurrentFilePath tracking_a = Some (file_path row).
Proof.
  destruct (run_tracks_open_row [TextChange "/ws/a.ts"]
              (fresh_world (linear_clock 5000 0) (Some ["/ws"])) empty_database
              eq_refl eq_refl 1)
    as (d & row & H1 & H2 & H3 & H4 & _).
  - vm_compute. reflexivity.
  - exists d, row. split; [exact H1|]. split; [exact H2|]. split; [exact H3 | exact H4].
Defined.

(** ** No throw while the database is open *)

Lemma run_db_open (es : list Event) (w : World) (d : Database) :
  db (store w) = Some d -> is_Some (db (store (run es w))).
Proof.
  revert w d. induction es as [|e es IH]; intros w d Hd; cbn; [eauto|].
  destruct (deliver_step e w d Hd) as (w' & d' & He & Hd' & _).
  rewrite He. cbn. by apply (IH w' d').
Qed.

(** X17.  While the database is open no listener, heartbeat or [stop]
    throws, and none of them closes the database: after any run every
    further event returns normally. *)
Theorem run_never_throws (es : list Event) (w : World) (d : Database) :
  db (store w) = Some d ->
  is_Some (db (store (run es w))) ∧
  ∀ e, (deliver e (run es w)).1 = Ok tt.
Proof.
  intros Hd. destruct (run_db_open es w d Hd) as [d' Hd']. split; [eauto|].
  intros e. by destruct (deliver_step e _ d' Hd') as (w' & d'' & -> & _).
Qed.

Lemma run_never_throws_witness :
  (deliver Stop (run [TextChange "/ws/a.ts"; Heartbeat; ActiveEditor "/ws/b.ts"]
                   closed_once)).1 = Ok tt.
Proof.
  destruct (run_never_throws [TextChange "/ws/a.ts"; Heartbeat; ActiveEditor "/ws/b.ts"]
              closed_once (default empty_database (db (store closed_once)))) as [_ H].
  - vm_compute. reflexivity.
  - exact (H Stop).
Defined.

(** ** The aggregate law under the tracker *)

Lemma run_tracking_consistent (es : list Event) (w : World) (d : Database) :
  db (store w) = Some d -> tracking_consistent (view w d) ->
  ∃ d', db (store (run es w)) = Some d' ∧ tracking_consistent (view (run es w) d').
Proof.
  revert w d. induction es as [|e es IH]; intros w d Hd Hv; cbn; [eauto|].
  destruct (deliver_step e w d Hd) as (w' & d' & He & Hd' & Hstep).
  rewrite He. cbn. apply (IH w' d' Hd').
  by apply (session_step_consistent (view w d)).
Qed.

(** X18.  The tracker never double-counts.  If every file's total equals
    the summed durations of its closed sessions when a tracker without a
    session starts on an open database, the same holds after any run of
    events: the tracker ends only the session it holds, and that one is
    open. *)
Theorem tracker_keeps_aggregates (es : list Event) (w : World) (d : Database) :
  db (store w) = Some d -> aggregates_consistent d ->
  currentSessionId (tracker w) = None ->
  ∃ d', db (store (run es w)) = Some d' ∧
        ∀ f, file_total d' f = closed_time f (sessions d').
Proof.
  intros Hd Hagg Hc.
  destruct (run_tracking_consistent es w d Hd) as (d' & Hd' & Hagg' & _).
  { split; [done|]. unfold view; cbn. by rewrite Hc. }
  eauto.
Qed.

Lemma tracker_keeps_aggregates_witness :
  ∃ d', db (store (run [TextChange "/ws/a.ts"; Selection "/ws/b.ts"; Stop]
                     (fresh_world (linear_clock 0 7) None))) = Some d' ∧
        ∀ f, file_total d' f = closed_time f (sessions d').
Proof.
  apply (tracker_keeps_aggregates _ _ empty_database).
  - reflexivity.
  - exact empty_database_consistent.
  - reflexivity.
Defined.

(** ** stop *)

Lemma stop_spec (w : World) (d : Database) :
  db (store w) = Some d ->
  let w1 := (stop w).2 in
  (stop w).1 = Ok tt ∧
  isTracking w1 = false ∧
  heartbeatInterval (tracker w1) = false ∧
  disposables (tracker w1) = 0%nat ∧
  (∀ i row, currentSessionId (tracker w) = Some i -> sessions d !! i = Some row ->
            session_closed_in i w1) ∧
  stop w1 = (Ok tt, w1).
Proof.
  intros Hd w1. subst w1. rewrite stop_eq, endCurrentSession_eq.
  cbn [tracker with_tracker set_heartbeatInterval currentSessionId].
  destruct (currentSessionId (tracker w)) as [i|] eqn:Hc.
  - rewrite endSession_eq. cbn [store with_tracker]. rewrite Hd.
    destruct (sessions d !! i) as [row|] eqn:Hrow.
    + cbn. do 4 (split; [done|]). split.
      * intros j row' Hj Hr. simplify_eq. unfold session_closed_in. cbn.
        eexists _, _, _. split; [done|]. unfold ended_database; cbn.
        rewrite lookup_alter_eq, Hrow. cbn. eauto.
      * rewrite stop_eq, endCurrentSession_eq. done.
    + cbn. do 4 (split; [done|]). split; [intros j row' Hj Hr; simplify_eq|].
      rewrite stop_eq, endCurrentSession_eq. done.
  - cbn. unfold isTracking. cbn. rewrite Hc.
    split; [done|]. split; [by apply bool_decide_eq_false_2; intros []|].
    do 2 (split; [done|]). split; [done|].
    rewrite stop_eq, endCurrentSession_eq. cbn. rewrite Hc. done.
Qed.

(** X19.  On an open database [stop] returns normally with the tracker's
    session, if any, ended in the store and the tracker not tracking, its
    heartbeat cleared and its listeners disposed; a second [stop] changes
    nothing at all. *)
Theorem stop_twice (w : World) (d : Database) :
  db (store w) = Some d ->
  let w1 := (stop w).2 in
  (stop w).1 = Ok tt ∧
  isTracking w1 = false ∧
  heartbeatInterval (tracker w1) = false ∧
  disposables (tracker w1) = 0%nat ∧
  (∀ i row, currentSessionId (tracker w) = Some i -> sessions d !! i = Some row ->
            session_closed_in i w1) ∧
  stop w1 = (Ok tt, w1).
Proof. exact (stop_spec w d). Qed.

Lemma stop_twice_witness :
  isTracking (stop tracking_a).2 = false ∧
  stop (stop tracking_a).2 = (Ok tt, (stop tracking_a).2).
Proof.
  destruct (stop_twice tracking_a (default empty_database (db (store tracking_a))))
    as (_ & H1 & _ & _ & _ & H2).
  - vm_compute. reflexivity.
  - split; [exact H1 | exact H2].
Defined.

(** ** Project resolution *)

Lemma prefix_startsWith (p f : string) :
  String.prefix p f = true ↔ ∃ rest, f = (p ++ rest)%string.
Proof.
  revert f. induction p as [|a p IH]; intros f; simpl.
  - destruct f; split; eauto.
  - destruct f as [|b f]; simpl; [split; [done|by intros [? ?]]|].
    destruct (Ascii.ascii_dec a b) as [->|Hne].
    + rewrite IH. split; intros [rest Hr]; exists rest.
      * by rewrite Hr.
      * change (String b f = String b (p ++ rest)%string) in Hr. congruence.
    + split; [done|]. intros [rest Hr].
      change (String b f = String a (p ++ rest)%string) in Hr. congruence.
Qed.

(** X20.  [getProjectPath] takes the first workspace folder, in the order
    the host lists them, whose path the file path starts with as text: no
    earlier folder is a prefix, a later and longer one is not preferred, and
    a folder matches whatever follows it in the path (no separator is
    required).  Without folders, or when none is a prefix, it answers null. *)
Theorem resolve_project_first_match (f : string) (folders : list string) :
  resolve_project f None = None ∧
  match resolve_project f (Some folders) with
  | Some p =>
      ∃ before after, folders = before ++ p :: after ∧
                      (∃ rest, f = (p ++ rest)%string) ∧
                      ∀ q, q ∈ before -> ¬ ∃ rest, f = (q ++ rest)%string
  | None => ∀ q, q ∈ folders -> ¬ ∃ rest, f = (q ++ rest)%string
  end ∧
  (∀ p rest others, resolve_project (p ++ rest)%string (Some (p :: others)) = Some p).
Proof.
  split; [done|]. split.
  - unfold resolve_project. induction folders as [|q l IH]; cbn.
    + intros q Hq. by apply elem_of_nil in Hq.
    + destruct (String.prefix q f) eqn:Hq.
      * exists [], l. split; [done|]. split; [by apply prefix_startsWith|].
        intros q' Hq'. by apply elem_of_nil in Hq'.
      * assert (Hnq : ¬ ∃ rest, f = (q ++ rest)%string).
        { rewrite <- prefix_startsWith. congruence. }
        destruct (find _ l) as [p|].
        -- destruct IH as (before & after & -> & Hp & Hb).
           exists (q :: before), after. split; [done|]. split; [done|].
           intros q' Hq'. apply elem_of_cons in Hq' as [->|Hq']; [done|by apply Hb].
        -- intros q' Hq'. apply elem_of_cons in Hq' as [->|Hq']; [done|by apply IH].
  - intros p rest others. unfold resolve_project; cbn.
    assert (H : String.prefix p (p ++ rest) = true) by (apply prefix_startsWith; eauto).
    by rewrite H.
Qed.

(** ** getSessionStartTime *)

(** X21.  [getSessionStartTime] does not report when the session started
    but [lastActivityTime]: with a session open for [f], activity on [f]
    moves it to the clock reading of that activity, and losing the window
    focus moves it two minutes before the reading of that moment, while the
    row of the session, and so its [start_time], is untouched in both cases;
    without a session it answers null. *)
Theorem getSessionStartTime_is_last_activity (w : World) (f : string) (i : Z)
    (ed : option string) :
  currentSessionId (tracker w) = Some i ->
  currentFilePath (tracker w) = Some f ->
  getSessionStartTime w = Some (lastActivityTime (tracker w)) ∧
  getSessionStartTime (onActivity f w).2 = Some (now w) ∧
  db (store (onActivity f w).2) = db (store w) ∧
  getSessionStartTime (onDidChangeWindowState false ed w).2 = Some (now w - IDLE_TIMEOUT_MS) ∧
  db (store (onDidChangeWindowState false ed w).2) = db (store w) ∧
  (∀ w0, currentSessionId (tracker w0) = None -> getSessionStartTime w0 = None).
Proof.
  intros Hc Hf. unfold getSessionStartTime.
  rewrite onActivity_eq, window_blur_eq, Hc, Hf.
  rewrite !bool_decide_eq_true_2 by done. cbn. rewrite Hc.
  do 5 (split; [done|]). by intros w0 ->.
Qed.

Lemma getSessionStartTime_is_last_activity_witness :
  getSessionStartTime (onDidChangeWindowState false None tracking_a).2 =
    Some (5000 - 120000).
Proof.
  destruct (getSessionStartTime_is_last_activity tracking_a "/ws/a.ts" 1 None)
    as (_ & _ & _ & H & _).
  - vm_compute. reflexivity.
  - vm_compute. reflexivity.
  - rewrite H. vm_compute. reflexivity.
Defined.

(** ** activate and deactivate *)

Lemma deactivate_returns (sb : M unit) (w : World) : (deactivate sb w).1 = Ok tt.
Proof.
  unfold deactivate, try_catch.
  by destruct ((stop;; sb;; close) w) as [[[]|msg] w'].
Qed.

Lemma deactivate_spec (w : World) (d : Database) (statusBarStop : M unit) :
  db (store w) = Some d ->
  (∀ w0, statusBarStop w0 = (Ok tt, w0)) ->
  (∀ sb w0, (deactivate sb w0).1 = Ok tt) ∧
  ∃ w' d',
    deactivate statusBarStop w = (Ok tt, w') ∧
    db (store w') = None ∧
    isTracking w' = false ∧
    disk (host w') = Some d' ∧
    (∀ j s, sessions d' !! j = Some s -> j ≠ 0 -> is_Some (end_time s)) ∧
    (tracking_consistent (view w d) -> aggregates_consistent d').
Proof.
  intros Hd Hsb. split; [apply deactivate_returns|].
  destruct (stop_step w d Hd) as (w1 & d1 & Hs & Hd1 & Hstep).
  destruct (stop_spec w d Hd) as (_ & Htr & _). rewrite Hs in Htr. cbn in Htr.
  destruct (close_spec w1 d1 Hd1)
    as (w2 & d2 & Hc & Hd2 & Hdisk & Ht & Hcl & _ & _ & Hagg).
  exists w2, d2. split.
  { unfold deactivate, try_catch, mbind, M_bind, bind. by rewrite Hs, Hsb, Hc. }
  split; [done|]. split; [unfold isTracking in *; by rewrite Ht|].
  split; [done|]. split; [done|].
  intros Hv. apply Hagg.
  by destruct (session_step_consistent _ _ Hstep Hv) as [? _].
Qed.

(** X22.  [deactivate] never throws.  On an open database, with a status
    bar whose [stop] returns normally without touching anything, it leaves
    the tracker not tracking and the database handle dropped, and the file
    on disk holds every session closed (but one with id 0); if the totals
    matched the closed durations and the tracker's session was an open row,
    the totals in the file match too: the session ended by [stop] is not
    ended again by [close]. *)
Theorem deactivate_closes_everything (w : World) (d : Database) (statusBarStop : M unit) :
  db (store w) = Some d ->
  (∀ w0, statusBarStop w0 = (Ok tt, w0)) ->
  (∀ sb w0, (deactivate sb w0).1 = Ok tt) ∧
  ∃ w' d',
    deactivate statusBarStop w = (Ok tt, w') ∧
    db (store w') = None ∧
    isTracking w' = false ∧
    disk (host w') = Some d' ∧
    (∀ j s, sessions d' !! j = Some s -> j ≠ 0 -> is_Some (end_time s)) ∧
    (tracking_consistent (view w d) -> aggregates_consistent d').
Proof. exact (deactivate_spec w d statusBarStop). Qed.

Lemma deactivate_closes_everything_witness :
  ∃ w' d', deactivate (ret tt) tracking_a = (Ok tt, w') ∧
           disk (host w') = Some d' ∧ isTracking w' = false.
Proof.
  destruct (deactivate_closes_everything tracking_a
              (default empty_database (db (store tracking_a))) (ret tt))
    as (_ & w' & d' & H1 & _ & H2 & H3 & _).
  - vm_compute. reflexivity.
  - intros w0. reflexivity.
  - exists w', d'. split; [exact H1|]. split; [exact H3 | exact H2].
Defined.

Lemma activate_eq (ed : option string) (sb : M unit) (w : World) :
  (∀ w0, sb w0 = (Ok tt, w0)) ->
  activate ed sb w =
  let w0 :=
    with_tracker
      (set_heartbeatInterval true (set_disposables 4 new_tracker))
      (with_store {| db := Some (default empty_database (disk (host w)));
                     saveTimeout := true |} w) in
  match ed with
  | Some f => (Ok tt, (onActivity f w0).2)
  | None => (Ok tt, w0)
  end.
Proof.
  intros Hsb. unfold activate, try_catch, initialize, start.
  unfold mbind, M_bind, bind, get, modify_store, modify_tracker, modify, scheduleSave, ret.
  cbn. destruct ed as [f|]; [|by rewrite Hsb].
  match goal with |- context [onActivity f ?x] => set (w0 := x) end.
  destruct (onActivity_step f w0 (default empty_database (disk (host w))) eq_refl)
    as (w' & d' & He & _).
  rewrite He. cbn. by rewrite Hsb.
Qed.

(** X23.  A whole life of the extension.  [activate] loads the file (or
    starts empty) and begins to track the active editor if there is one;
    then any events arrive; then [deactivate] runs.  With a status bar that
    does not interfere, the file written at the end holds every session
    closed (but one with id 0), those left open by an earlier crash
    included, and its totals equal the summed durations of the closed
    sessions if those of the file loaded at the start did. *)
Theorem extension_lifecycle (w : World) (ed : option string) (es : list Event)
    (statusBarStart statusBarStop : M unit) :
  (∀ w0, statusBarStart w0 = (Ok tt, w0)) ->
  (∀ w0, statusBarStop w0 = (Ok tt, w0)) ->
  let w1 := (activate ed statusBarStart w).2 in
  let w3 := (deactivate statusBarStop (run es w1)).2 in
  (isTracking w1 = true ↔ is_Some ed) ∧
  db (store w1) ≠ None ∧
  ∃ d', disk (host w3) = Some d' ∧
        db (store w3) = None ∧
        isTracking w3 = false ∧
        (∀ j s, sessions d' !! j = Some s -> j ≠ 0 -> is_Some (end_time s)) ∧
        (aggregates_consistent (default empty_database (disk (host w))) ->
         aggregates_consistent d').
Proof.
  intros Hstart Hstop w1 w3.
  set (d0 := default empty_database (disk (host w))).
  set (w0 := with_tracker (set_heartbeatInterval true (set_disposables 4 new_tracker))
               (with_store {| db := Some d0; saveTimeout := true |} w)).
  assert (H1 : ∃ d1, db (store w1) = Some d1 ∧
                     (isTracking w1 = true ↔ is_Some ed) ∧
                     (aggregates_consistent d0 -> tracking_consistent (view w1 d1))).
  { subst w1. rewrite (activate_eq ed statusBarStart w Hstart). cbv zeta. fold d0 w0.
    destruct ed as [f|]; cbn [snd].
    - destruct (onActivity_step f w0 d0 eq_refl) as (w' & d' & He & Hd' & Hstep).
      destruct (startNewSession_step f (touch (now w0) (tick w0)) d0 eq_refl)
        as (w'' & t' & He' & Hc' & _).
      rewrite He. cbn. exists d'. split; [done|]. split.
      + split; [eauto|]. intros _. unfold isTracking.
        rewrite onActivity_eq in He. cbn in He. rewrite He' in He.
        injection He as <-. rewrite Hc'. by apply bool_decide_eq_true_2.
      + intros Hagg. apply (session_step_consistent _ _ Hstep). by split.
    - exists d0. split; [done|]. split.
      + split; [done|]. by intros [? ?].
      + intros Hagg. by split. }
  destruct H1 as (d1 & Hd1 & Htr & Hcons).
  split; [done|]. split; [by rewrite Hd1|].
  destruct (run_db_open es w1 d1 Hd1) as [d2 Hd2].
  destruct (deactivate_spec (run es w1) d2 statusBarStop Hd2 Hstop)
    as (_ & w' & d' & He & Hdb & Hnot & Hdisk & Hcl & Hagg).
  subst w3. rewrite He. cbn [snd]. exists d'. do 4 (split; [done|]).
  intros Hagg0. apply Hagg.
  destruct (run_tracking_consistent es w1 d1 Hd1 (Hcons Hagg0)) as (d2' & Hd2' & Hv).
  by simplify_eq.
Qed.

Lemma extension_lifecycle_witness :
  ∃ d', disk (host (deactivate (ret tt)
                      (run [Heartbeat; TextChange "/ws/c.ts"]
                         (activate (Some "/ws/b.ts") (ret tt) crashed_world).2)).2)
          = Some d' ∧
        ∀ j s, sessions d' !! j = Some s -> j ≠ 0 -> is_Some (end_time s).
Proof.
  destruct (extension_lifecycle crashed_world (Some "/ws/b.ts")
              [Heartbeat; TextChange "/ws/c.ts"] (ret tt) (ret tt))
    as (_ & _ & d' & H1 & _ & _ & H2 & _).
  - intros w0. reflexivity.
  - intros w0. reflexivity.
  - exists d'. split; [exact H1 | exact H2].
Defined.

(** The crash scenario, computed: the session that was open in the file is
    closed by [deactivate] with the clock reading of the shutdown, and its
    time reaches the file's total then. *)
Example lifecycle_after_crash :
  let w := (deactivate (ret tt)
              (run [Heartbeat] (activate None (ret tt) crashed_world).2)).2 in
  (d ← disk (host w); sessions d !! 1) =
    Some {| file_path := "/ws/a.ts"; project_path := Some "/ws"; start_time := 90001000;
            end_time := Some 90003000; duration_ms := Some 2000 |} ∧
  (d ← disk (host w); file_stats d !! "/ws/a.ts") =
    Some {| fs_project_path := Some "/ws"; total_time_ms := 2000;
            last_active := 90003000 |}.
Proof. vm_compute. done. Qed.

(** * The reporter *)

(** ** formatDuration *)

(** X24.  [formatDuration] cuts, it never rounds up, and it shows at most
    two units.  Write a duration of at least 0 as [d] days, [h] hours, [m]
    minutes, [s] seconds and [r] milliseconds, each within its range: the
    text is 'Nd Nh' if [d > 0], else 'Nh Nm' if [h > 0], else 'Nm Ns' if
    [m > 0], else 'Ns'; the smaller units are dropped.  A negative duration
    is shown in whole seconds rounded down, whatever its size. *)
Theorem formatDuration_truncates :
  (∀ d h m s r,
     0 <= d -> 0 <= h < 24 -> 0 <= m < 60 -> 0 <= s < 60 -> 0 <= r < 1000 ->
     formatDuration ((((d * 24 + h) * 60 + m) * 60 + s) * 1000 + r) =
     if bool_decide (0 < d) then pretty d +:+ "d " +:+ pretty h +:+ "h"
     else if bool_decide (0 < h) then pretty h +:+ "h " +:+ pretty m +:+ "m"
     else if bool_decide (0 < m) then pretty m +:+ "m " +:+ pretty s +:+ "s"
     else pretty s +:+ "s") ∧
  (∀ ms, ms < 0 -> formatDuration ms = pretty (ms / 1000) +:+ "s").
Proof.
  split.
  - intros d h m s r Hd Hh Hm Hs Hr. unfold formatDuration.
    assert (E1 : ((((d * 24 + h) * 60 + m) * 60 + s) * 1000 + r) / 1000
                 = ((d * 24 + h) * 60 + m) * 60 + s).
    { rewrite Z.div_add_l by lia. rewrite (Z.div_small r) by lia. lia. }
    assert (E2 : (((d * 24 + h) * 60 + m) * 60 + s) / 60 = (d * 24 + h) * 60 + m).
    { rewrite Z.div_add_l by lia. rewrite (Z.div_small s) by lia. lia. }
    assert (E3 : ((d * 24 + h) * 60 + m) / 60 = d * 24 + h).
    { rewrite Z.div_add_l by lia. rewrite (Z.div_small m) by lia. lia. }
    assert (E4 : (d * 24 + h) / 24 = d).
    { rewrite Z.div_add_l by lia. rewrite (Z.div_small h) by lia. lia. }
    cbv zeta. rewrite E1, E2, E3, E4.
    assert (R1 : Z.rem (d * 24 + h) 24 = h).
    { rewrite Z.rem_mod_nonneg by lia. rewrite Z.add_comm, Z.mod_add by lia.
      apply Z.mod_small. lia. }
    assert (R2 : Z.rem ((d * 24 + h) * 60 + m) 60 = m).
    { rewrite Z.rem_mod_nonneg by lia. rewrite Z.add_comm, Z.mod_add by lia.
      apply Z.mod_small. lia. }
    assert (R3 : Z.rem (((d * 24 + h) * 60 + m) * 60 + s) 60 = s).
    { rewrite Z.rem_mod_nonneg by lia. rewrite Z.add_comm, Z.mod_add by lia.
      apply Z.mod_small. lia. }
    rewrite R1, R2, R3.
    destruct (decide (0 < d)) as [Hd0|Hd0].
    { by rewrite !(bool_decide_eq_true_2 (0 < d)) by done. }
    rewrite !(bool_decide_eq_false_2 (0 < d)) by done.
    assert (d = 0) as -> by lia. rewrite !Z.mul_0_l, !Z.add_0_l.
    destruct (decide (0 < h)) as [Hh0|Hh0].
    { by rewrite !(bool_decide_eq_true_2 (0 < h)) by done. }
    rewrite !(bool_decide_eq_false_2 (0 < h)) by done.
    assert (h = 0) as -> by lia. rewrite !Z.mul_0_l, !Z.add_0_l.
    destruct (decide (0 < m)) as [Hm0|Hm0].
    { by rewrite !(bool_decide_eq_true_2 (0 < m)) by done. }
    rewrite !(bool_decide_eq_false_2 (0 < m)) by done.
    assert (m = 0) as -> by lia. by rewrite !Z.mul_0_l, !Z.add_0_l.
  - intros ms Hms. unfold formatDuration. cbv zeta.
    assert (ms / 1000 < 0) by (apply Z.div_lt_upper_bound; lia).
    assert (ms / 1000 / 60 < 0) by (apply Z.div_lt_upper_bound; lia).
    assert (ms / 1000 / 60 / 60 < 0) by (apply Z.div_lt_upper_bound; lia).
    assert (ms / 1000 / 60 / 60 / 24 < 0) by (apply Z.div_lt_upper_bound; lia).
    by rewrite !bool_decide_eq_false_2 by lia.
Qed.

Example formatDuration_examples :
  formatDuration 0 = "0s" ∧
  formatDuration 59999 = "59s" ∧
  formatDuration 3599999 = "59m 59s" ∧
  formatDuration 86399999 = "23h 59m" ∧
  formatDuration 90061001 = "1d 1h" ∧
  formatDuration (-1) = "-1s".
Proof. vm_compute. done. Qed.

(** ** generateCSV *)

Lemma read_quoted_body_escape (s rest : string) :
  (∀ c rest', rest = String c rest' -> c ≠ dquote) ->
  read_quoted_body (escape_quotes s +:+ String dquote rest) = Some (s, rest).
Proof.
  intros Hrest. induction s as [|c s IH].
  - change (read_quoted_body (String dquote rest) = Some (EmptyString, rest)).
    cbn [read_quoted_body]. rewrite Ascii.eqb_refl.
    destruct rest as [|c' rest']; [done|].
    destruct (Ascii.eqb_spec c' dquote) as [->|]; [|done].
    by destruct (Hrest dquote rest').
  - cbn [escape_quotes]. destruct (Ascii.eqb_spec c dquote) as [->|Hc].
    + change (read_quoted_body
                (String dquote (String dquote (escape_quotes s +:+ String dquote rest)))
              = Some (String dquote s, rest)).
      cbn [read_quoted_body]. rewrite !Ascii.eqb_refl, IH. done.
    + change (read_quoted_body (String c (escape_quotes s +:+ String dquote rest))
              = Some (String c s, rest)).
      cbn [read_quoted_body]. rewrite (proj2 (Ascii.eqb_neq c dquote)) by done.
      by rewrite IH.
Qed.

Lemma string_app_assoc (a b c : string) : (a +:+ b) +:+ c = a +:+ (b +:+ c).
Proof.
  induction a as [|x a IH]; [done|].
  change (String x ((a +:+ b) +:+ c) = String x (a +:+ (b +:+ c))). by rewrite IH.
Qed.

(** X25.  Quoting for the CSV export is reversible: whatever characters a
    file path holds (quotes, commas, line feeds), a reader of quoted CSV
    fields gets exactly the path back from the start of its line, and the
    rest of the line begins with the comma that separates the next field. *)
Theorem csv_line_file_path_round_trip (toISOString : Z -> string)
    (file : string * FileStats) :
  ∃ rest, read_quoted (csv_line toISOString file) = Some (file.1, String ","%char rest) ∧
          ∀ s after, (∀ c rest', after = String c rest' -> c ≠ dquote) ->
                     read_quoted (quoted s +:+ after) = Some (s, after).
Proof.
  assert (H : ∀ s after, (∀ c rest', after = String c rest' -> c ≠ dquote) ->
                         read_quoted (quoted s +:+ after) = Some (s, after)).
  { intros s after Hafter. unfold quoted.
    change (read_quoted (String dquote ((escape_quotes s +:+ String dquote EmptyString)
                                        +:+ after)) = Some (s, after)).
    cbn [read_quoted]. rewrite Ascii.eqb_refl, string_app_assoc.
    by apply read_quoted_body_escape. }
  unfold csv_line. cbv zeta.
  match goal with
  | |- ∃ rest, read_quoted (_ +:+ "," +:+ ?R) = _ ∧ _ => exists R
  end.
  split; [|exact H].
  apply (H file.1 (String ","%char _)). intros c rest' [= <- _]. by vm_compute.
Qed.

(** * More on the store and the tracker *)

(** ** Sessions that started before midnight *)

(** X26.  [getTodayStats] selects by [start_time] alone: a session that
    started before today's midnight adds nothing to [totalTime] and does
    not make its file count, even when it ended today; both numbers are
    those of the table without that row. *)
Theorem getTodayStats_ignores_earlier_start (w : World) (d : Database) (i : Z)
    (s : Session) :
  db (store w) = Some d -> sessions d !! i = Some s ->
  start_time s < localMidnight (host w) (now w) ->
  let others := started_since (localMidnight (host w) (now w)) (delete i (sessions d)) in
  (getTodayStats w).1 =
    Ok {| totalTime := sum_duration others;
          fileCount := Z.of_nat (size (distinct_files others)) |}.
Proof.
  intros Hd Hs Hold others. subst others. rewrite getTodayStats_eq, Hd. cbn.
  unfold started_since. rewrite (map_filter_delete_not _ (sessions d) i); [done|].
  intros y Hy. rewrite Hs in Hy. injection Hy as <-. cbn. lia.
Qed.

Lemma getTodayStats_ignores_earlier_start_witness :
  (getTodayStats spans_midnight).1 = Ok {| totalTime := 0; fileCount := 0 |}.
Proof.
  rewrite (getTodayStats_ignores_earlier_start spans_midnight
             (default empty_database (db (store spans_midnight))) 1
             {| file_path := "/ws/a.ts"; project_path := None; start_time := 86399000;
                end_time := Some 86400000; duration_ms := Some 1000 |}).
  - vm_compute. reflexivity.
  - vm_compute. reflexivity.
  - vm_compute. reflexivity.
  - vm_compute. reflexivity.
Defined.

(** ** The two activity listeners *)

(** X27.  [onEditorChange] and [onActivity] read the clock in a different
    order (one stamps [lastActivityTime] first, the other last) but do the
    same thing: on an open database, with the two session fields null
    together and a clock that stands still during the call, both end in
    exactly the same state. *)
Theorem onEditorChange_like_onActivity (w : World) (d : Database) (f : string) (t : Z) :
  db (store w) = Some d ->
  session_fields_paired (tracker w) ->
  (∀ k, (k < 4)%nat -> clock (host w) (k + ticks (host w)) = t) ->
  onEditorChange f w = onActivity f w.
Proof.
  intros Hd Hp Hclock.
  pose proof (Hclock 0%nat ltac:(lia)) as H0. pose proof (Hclock 1%nat ltac:(lia)) as H1.
  pose proof (Hclock 2%nat ltac:(lia)) as H2. pose proof (Hclock 3%nat ltac:(lia)) as H3.
  cbn in H0, H1, H2, H3.
  rewrite onEditorChange_eq, onActivity_eq.
  destruct (decide (currentFilePath (tracker w) = Some f)) as [Hf|Hf].
  - rewrite (bool_decide_eq_false_2 (_ ≠ _)) by (by intros ?).
    rewrite (bool_decide_eq_true_2 (_ = Some f)) by done.
    assert (Hc : currentSessionId (tracker w) ≠ None).
    { intros Hc. apply Hp in Hc. congruence. }
    by rewrite (bool_decide_eq_true_2 (_ ≠ None)) by done.
  - rewrite (bool_decide_eq_true_2 (_ ≠ Some f)) by done.
    rewrite (bool_decide_eq_false_2 (_ = Some f)) by done. cbn [andb].
    rewrite !startNewSession_eq, !endCurrentSession_eq.
    autorewrite with world.
    destruct (currentSessionId (tracker w)) as [i|] eqn:Hc.
    + rewrite !endSession_eq. autorewrite with world. rewrite Hd.
      destruct (sessions d !! i) as [row|] eqn:Hrow.
      * rewrite !startSession_eq. unfold now. cbn. rewrite H0, H1, H2, H3. done.
      * rewrite !startSession_eq. unfold now. cbn. rewrite Hd. cbn.
        rewrite H0, H1, H2. done.
    + rewrite !startSession_eq. unfold now. cbn. rewrite Hd. cbn.
      rewrite H0, H1, H2. done.
Qed.

Lemma onEditorChange_like_onActivity_witness :
  onEditorChange "/ws/b.ts" tracking_a = onActivity "/ws/b.ts" tracking_a.
Proof.
  apply (onEditorChange_like_onActivity tracking_a
           (default empty_database (db (store tracking_a))) "/ws/b.ts" 5000).
  - vm_compute. reflexivity.
  - split; intros H; vm_compute in H; discriminate.
  - intros k _. change (clock (host tracking_a)) with (linear_clock 5000 0).
    unfold linear_clock. lia.
Defined.
